(** * Dashboard de límites FVT: the data pipeline of [code.py]

    The script loads a table of tolerance limits (one row per Base/FVT and
    Variable, with a lower limit LIC and an upper limit LSC), derives the
    columns [Rango] and [Centro], filters the rows by two multiselect
    widgets, and renders KPIs, charts and a heatmap from the filtered frame.

    Modelling choices, all of them stated here once:
    - a pandas [DataFrame] is the list of its rows in iteration order, each
      row paired with its index label, as [pd.read_csv] returns it: the
      labels are whatever index the file gives (a [RangeIndex], or the
      values of an implicit index column);
    - the cells are dynamically typed, so the model is written over the
      dtype of the key columns ([KeyDtype]: strings with missing values,
      int64, ...) and the dtype of the limit columns ([NumDtype]: float64
      with NaN, int64, ...); the operations of a dtype are what numpy and
      pandas compute on it (rounding, wrap-around, NaN handling), and the
      facts about them that a proof uses are stated in [KeyLaws] and
      [NumLaws]. The dtypes of a file with string keys and float64 limits
      are given in full ([key], [float64]), and every worked example is
      computed on them;
    - a derived column that has not been assigned yet is [None];
    - Streamlit calls append widgets to a trace; [st.stop()] and a raised
      Python exception end the run, which the [script] monad records;
    - chart styling (colours, titles, axis names) and the [:.2f] rendering of
      the metrics are presentation only: a chart carries the frame handed to
      plotly, a metric carries the number itself; a plotly or Streamlit call
      is taken to return once its data is computed;
    - the file has the columns Base, Variable, LIC and LSC once its header
      is trimmed, and its limit columns are numeric; on any other file line
      50 raises and nothing below it runs;
    - [sorted] at lines 59-60 may raise, and then no selection is made; the
      run of lines 74-292 is modelled for the selections the two
      multiselects return. *)

From Stdlib Require Import ZArith QArith Floats.
From stdpp Require Import list strings sorting.

(** * Outcome of a call *)

(** The Python exceptions the modelled calls can raise. *)
Inductive exn := ValueError | KeyError | TypeError.

(** A computation returns, is halted by [st.stop()], or raises. *)
Inductive result (A : Type) :=
  | Ok (a : A)
  | Stop
  | Raise (e : exn).
Arguments Ok {A} a.
Arguments Stop {A}.
Arguments Raise {A} e.

Definition result_bind {A B} (f : A → result B) (m : result A) : result B :=
  match m with
  | Ok a => f a
  | Stop => Stop
  | Raise e => Raise e
  end.

(** * Dtypes *)

(** The dtype of a key column (Base, Variable).
    - [=] on [K] is the identity of keys as [unique], [isin] and [groupby]
      see it (one missing value, equal to itself);
    - [isna] tells the missing value (NaN, None);
    - [key_le] is the order in which pandas sorts group keys of this dtype;
    - [py_sorted] is Python's [sorted] on keys of this dtype, which raises
      [TypeError] when two of the keys do not compare (a string and NaN);
    - [key_str] is [str(k)], as an f-string prints the key. *)
Class KeyDtype (K : Type) := {
  key_eq_dec :: EqDecision K;
  isna : K → bool;
  key_le : relation K;
  key_le_dec :: RelDecision key_le;
  py_sorted : list K → result (list K);
  key_str : K → string
}.

(** The dtype of the limit columns (LIC, LSC) and of what is computed from
    them.
    - [num_sub], [num_add]: [-] and [+] of two columns;
    - [num_half]: [/ 2], true division;
    - [isnan]: the missing value test;
    - [num_leb]: [<=], false whenever an argument is NaN;
    - [fill_neg_inf], [fill_pos_inf]: NaN replaced by [-inf] ([+inf]),
      other values unchanged, as [nanargmax] ([nanargmin]) prepares a
      column;
    - [num_nan]: the NaN that fills a cell without value;
    - [num_mean]: the mean pandas computes over a group, NaN skipped. *)
Class NumDtype (N : Type) := {
  num_sub : N → N → N;
  num_add : N → N → N;
  num_half : N → N;
  isnan : N → bool;
  num_leb : N → N → bool;
  fill_neg_inf : N → N;
  fill_pos_inf : N → N;
  num_nan : N;
  num_mean : list N → N
}.

(** What the proofs use of a key dtype: its order is total, and [sorted],
    when it returns, returns its argument rearranged, in ascending order if
    no key is missing. *)
Class KeyLaws (K : Type) `{KeyDtype K} : Prop := {
  key_le_po :: PartialOrder (key_le (K := K));
  key_le_total :: Total (key_le (K := K));
  py_sorted_perm (l l' : list K) : py_sorted l = Ok l' → l' ≡ₚ l;
  py_sorted_sorted (l l' : list K) :
    py_sorted l = Ok l' → Forall (λ k, isna k = false) l →
    StronglySorted key_le l'
}.

(** What the proofs use of a numeric dtype: [<=] is a total preorder on
    the values that are not NaN, and the fills remove NaN and nothing
    else. *)
Class NumLaws (N : Type) `{NumDtype N} : Prop := {
  num_leb_refl (x : N) : isnan x = false → num_leb x x = true;
  num_leb_trans (x y z : N) :
    num_leb x y = true → num_leb y z = true → num_leb x z = true;
  num_leb_total (x y : N) :
    isnan x = false → isnan y = false →
    num_leb x y = true ∨ num_leb y x = true;
  fill_neg_inf_notnan (x : N) : isnan (fill_neg_inf x) = false;
  fill_pos_inf_notnan (x : N) : isnan (fill_pos_inf x) = false;
  fill_neg_inf_id (x : N) : isnan x = false → fill_neg_inf x = x;
  fill_pos_inf_id (x : N) : isnan x = false → fill_pos_inf x = x;
  num_nan_isnan : isnan (num_nan (N := N)) = true
}.

(** * Rows and frames *)

(** One row of the frame. [Rango] and [Centro] are the derived columns:
    [None] as long as the column has not been assigned. [passthrough] holds
    the cells of every other column of the file, by header. *)
Record row (K N : Type) := Row {
  col_base : K;
  col_var : K;
  col_lic : N;
  col_lsc : N;
  Rango : option N;
  Centro : option N;
  passthrough : list (string * string)
}.
Arguments Row {K N} _ _ _ _ _ _ _.
Arguments col_base {K N} _.
Arguments col_var {K N} _.
Arguments col_lic {K N} _.
Arguments col_lsc {K N} _.
Arguments Rango {K N} _.
Arguments Centro {K N} _.
Arguments passthrough {K N} _.

(** A frame: rows in iteration order, each with its index label. *)
Abbreviation DataFrame L K N := (list (L * row K N)).

(** The result of [pivot_table]: row labels, column labels, and one list of
    cells per row label. *)
Record pivot (K N : Type) := Pivot {
  pivot_index : list K;
  pivot_columns : list K;
  pivot_values : list (list N)
}.
Arguments Pivot {K N} _ _ _.
Arguments pivot_index {K N} _.
Arguments pivot_columns {K N} _.
Arguments pivot_values {K N} _.

(** * Widgets *)

(** What is handed to plotly, per figure of the script. *)
Inductive figure (K N : Type) :=
  | fig_bar_limits (df_melt : list (K * string * N)) (base_seleccionada : K)
  | fig_detalle (lsc_promedio lic_promedio : list (K * N))
  | fig_lic_bar (df_vars : list (K * N * N))
  | fig_lsc_bar (df_vars : list (K * N * N))
  | fig_heat (df_heat : pivot K N).
Arguments fig_bar_limits {K N} _ _.
Arguments fig_detalle {K N} _ _.
Arguments fig_lic_bar {K N} _.
Arguments fig_lsc_bar {K N} _.
Arguments fig_heat {K N} _.

(** The Streamlit calls of sections 4 to 6. *)
Inductive widget (L K N : Type) :=
  | warning (body : string)
  | info (body : string)
  | metric (label : string) (value : N) (delta : string)
  | markdown (body : string)
  | subheader (body : string)
  | write (body : string)
  | plotly_chart (fig : figure K N)
  | dataframe (data : list (L * (K * K * N * N * option N * option N))).
Arguments warning {L K N} _.
Arguments info {L K N} _.
Arguments metric {L K N} _ _ _.
Arguments markdown {L K N} _.
Arguments subheader {L K N} _.
Arguments write {L K N} _.
Arguments plotly_chart {L K N} _.
Arguments dataframe {L K N} _.

(** Where a widget is placed: the page itself, one of the four KPI
    columns, one of the three tabs, one of the two bar columns of tab 2. *)
Inductive container :=
  | page
  | c (n : nat)
  | tab (n : nat)
  | c_bar (n : nat).

(** A script: the widgets written so far and how the run went on. *)
Definition script (W A : Type) : Type := list (container * W) * result A.

Definition script_ret {W A} (a : A) : script W A := ([], Ok a).

Definition script_bind {W A B} (f : A → script W B) (m : script W A)
  : script W B :=
  match m.2 with
  | Ok a => (m.1 ++ (f a).1, (f a).2)
  | Stop => (m.1, Stop)
  | Raise e => (m.1, Raise e)
  end.

#[export] Instance script_mret {W} : MRet (script W) := @script_ret W.
#[export] Instance script_mbind {W} : MBind (script W) := @script_bind W.

Definition emit {W} (where_ : container) (w : W) : script W unit :=
  ([(where_, w)], Ok ()).

(** [st.stop()] *)
Definition stop {W A} : script W A := ([], Stop).

(** A pandas call inside the script: its exception, if any, ends the run. *)
Definition lift {W A} (r : result A) : script W A := ([], r).

(** * The script, over any index, key dtype and numeric dtype *)

Section model.
Context {L K N : Type} `{!EqDecision L, !KeyDtype K, !NumDtype N}.

(** [df[c]] with its index, and the bare values of a column. *)
Definition series {A} (c : row K N → A) (df : DataFrame L K N)
  : list (L * A) :=
  (λ ir, (ir.1, c ir.2)) <$> df.

Definition column {A} (c : row K N → A) (df : DataFrame L K N) : list A :=
  (λ ir, c ir.2) <$> df.

(** [load_data]: the frame [pd.read_csv] returns, rows and index as they
    are; what [load_data] changes is the header ([columns_strip] below). *)
Definition load_data (read_csv : DataFrame L K N) : DataFrame L K N :=
  read_csv.

(** ** Derived columns (section 3 of the script) *)

Definition set_Rango (v : option N) (r : row K N) : row K N :=
  Row (col_base r) (col_var r) (col_lic r) (col_lsc r) v (Centro r)
      (passthrough r).

Definition set_Centro (v : option N) (r : row K N) : row K N :=
  Row (col_base r) (col_var r) (col_lic r) (col_lsc r) (Rango r) v
      (passthrough r).

(** [df["Rango"] = df[col_lsc] - df[col_lic]] *)
Definition assign_Rango (df : DataFrame L K N) : DataFrame L K N :=
  (λ ir, (ir.1, set_Rango (Some (num_sub (col_lsc ir.2) (col_lic ir.2))) ir.2))
    <$> df.

(** [df["Centro"] = (df[col_lsc] + df[col_lic]) / 2] *)
Definition assign_Centro (df : DataFrame L K N) : DataFrame L K N :=
  (λ ir, (ir.1, set_Centro
                  (Some (num_half (num_add (col_lsc ir.2) (col_lic ir.2))))
                  ir.2)) <$> df.

(** Lines 50-51, the derivation step. *)
Definition derive (df : DataFrame L K N) : DataFrame L K N :=
  assign_Centro (assign_Rango df).

(** The frame [df] after lines 36, 50 and 51. *)
Definition df (read_csv : DataFrame L K N) : DataFrame L K N :=
  derive (load_data read_csv).

(** ** Sidebar filters (section 4) *)

(** [Series.unique()]: distinct values in order of first appearance. *)
Fixpoint unique (l : list K) : list K :=
  match l with
  | [] => []
  | x :: l => x :: filter (λ y, y ≠ x) (unique l)
  end.

(** [sorted(df[col_base].unique())], the options of the first multiselect
    and its default; [TypeError] when the keys do not compare. *)
Definition bases_unicas (df : DataFrame L K N) : result (list K) :=
  py_sorted (unique (column col_base df)).

Definition vars_unicas (df : DataFrame L K N) : result (list K) :=
  py_sorted (unique (column col_var df)).

(** [Series.isin(values)]: a missing key is in [values] when [values] holds
    the missing key. *)
Definition isin (s : list K) (values : list K) : list bool :=
  (λ x, bool_decide (x ∈ values)) <$> s.

(** [mask1 & mask2] on two boolean series over the same index. *)
Definition mask_and (m1 m2 : list bool) : list bool :=
  zip_with andb m1 m2.

(** [df[mask]]: the rows whose mask entry is [True]. *)
Fixpoint getitem_mask (df : DataFrame L K N) (mask : list bool)
  : DataFrame L K N :=
  match df, mask with
  | ir :: df, b :: mask =>
      if b then ir :: getitem_mask df mask else getitem_mask df mask
  | _, _ => []
  end.

(** Lines 74-77. *)
Definition df_filt (df : DataFrame L K N) (bases_sel vars_sel : list K)
  : DataFrame L K N :=
  getitem_mask df
    (mask_and (isin (column col_base df) bases_sel)
              (isin (column col_var df) vars_sel)).

(** [DataFrame.empty] *)
Definition empty (df : DataFrame L K N) : bool :=
  match df with [] => true | _ => false end.

(** ** KPIs (section 5) *)

(** One left-to-right pass that keeps the best entry seen so far and
    replaces it only by a strictly better one: numpy's [argmax] and
    [argmin] on a column without NaN. *)
Fixpoint scan (keep : N → N → bool) (best : L * N) (s : list (L * N)) : L :=
  match s with
  | [] => best.1
  | x :: s => scan keep (if keep best.2 x.2 then best else x) s
  end.

(** [Series.idxmax()], with its default [skipna=True]: NaN is replaced by
    [-inf], and the label of the first occurrence of the maximum is
    returned. [ValueError] on an empty series and on a series of NaN only
    (pandas 3; pandas 2 returns NaN there with a warning, and the [.loc]
    of line 92 raises [KeyError] in its place). *)
Definition idxmax (s : list (L * N)) : result L :=
  if forallb (λ x, isnan x.2) s then Raise ValueError
  else
    match (λ x, (x.1, fill_neg_inf x.2)) <$> s with
    | [] => Raise ValueError
    | x :: s => Ok (scan (λ best v, num_leb v best) x s)
    end.

(** [Series.idxmin()]: NaN is replaced by [+inf], and the label of the
    first occurrence of the minimum is returned. *)
Definition idxmin (s : list (L * N)) : result L :=
  if forallb (λ x, isnan x.2) s then Raise ValueError
  else
    match (λ x, (x.1, fill_pos_inf x.2)) <$> s with
    | [] => Raise ValueError
    | x :: s => Ok (scan (λ best v, num_leb best v) x s)
    end.

(** [df.loc[label]]: the row under the label ([inl]); under a label that
    several rows carry, the frame of these rows ([inr]); an unknown label
    is a [KeyError]. *)
Definition loc (df : DataFrame L K N) (label : L)
  : result (row K N + DataFrame L K N) :=
  match filter (λ ir, ir.1 = label) df with
  | [] => Raise KeyError
  | [ir] => Ok (inl ir.2)
  | rows => Ok (inr rows)
  end.

(** [df_filt.loc[df_filt[c].idxmax()]] and its three siblings. *)
Definition lic_max_row (df_filt : DataFrame L K N)
  : result (row K N + DataFrame L K N) :=
  result_bind (loc df_filt) (idxmax (series col_lic df_filt)).

Definition lic_min_row (df_filt : DataFrame L K N)
  : result (row K N + DataFrame L K N) :=
  result_bind (loc df_filt) (idxmin (series col_lic df_filt)).

Definition lsc_max_row (df_filt : DataFrame L K N)
  : result (row K N + DataFrame L K N) :=
  result_bind (loc df_filt) (idxmax (series col_lsc df_filt)).

Definition lsc_min_row (df_filt : DataFrame L K N)
  : result (row K N + DataFrame L K N) :=
  result_bind (loc df_filt) (idxmin (series col_lsc df_filt)).

(** ** Aggregations (tabs 1 to 3) *)

(** [df_base.melt(id_vars=[col_var], value_vars=[col_lic, col_lsc], ...)]:
    one [(Variable, Tipo_Límite, Valor)] record per row and limit, all the
    LIC records first, then all the LSC records. *)
Definition melt (df_base : DataFrame L K N) : list (K * string * N) :=
  ((λ ir, (col_var ir.2, "LIC", col_lic ir.2)) <$> df_base) ++
  ((λ ir, (col_var ir.2, "LSC", col_lsc ir.2)) <$> df_base).

(** [df_filt[df_filt[col_base] == base_seleccionada]]: [==] holds between
    a key and itself, the missing key apart (NaN is not [==] to NaN). *)
Definition df_base (df_filt : DataFrame L K N) (base_seleccionada : K)
  : DataFrame L K N :=
  getitem_mask df_filt
    ((λ b, bool_decide (b = base_seleccionada) && negb (isna b))
       <$> column col_base df_filt).

(** The keys of a [groupby]: the distinct keys that are not missing
    ([dropna=True]), in ascending order ([sort=True]). *)
Definition group_keys (l : list K) : list K :=
  merge_sort key_le (unique (filter (λ k, isna k = false) l)).

(** [df_filt.groupby(col_var)[[col_lsc, col_lic]].mean().reset_index()]:
    one record [(Variable, mean LSC, mean LIC)] per group. *)
Definition groupby_mean (df_filt : DataFrame L K N) : list (K * N * N) :=
  (λ v, let g := filter (λ ir, col_var ir.2 = v) df_filt in
        (v, num_mean (column col_lsc g), num_mean (column col_lic g)))
    <$> group_keys (column col_var df_filt).

(** [.sort_values(col_var)] on the grouped frame: its keys are distinct and
    none is missing, so any sort by key yields the same frame. *)
Definition by_key : relation (K * N * N) := λ a b, key_le a.1.1 b.1.1.

#[export] Instance by_key_dec : RelDecision by_key :=
  λ a b, decide (key_le a.1.1 b.1.1).

Definition sort_values (t : list (K * N * N)) : list (K * N * N) :=
  merge_sort by_key t.

(** Lines 198-203. *)
Definition df_vars (df_filt : DataFrame L K N) : list (K * N * N) :=
  sort_values (groupby_mean df_filt).

(** Mean of [Rango] over the rows of one (Base, Variable) pair. *)
Definition cell_mean (df_filt : DataFrame L K N) (b v : K) : N :=
  num_mean (omap (λ ir, Rango ir.2)
              (filter (λ ir, col_base ir.2 = b ∧ col_var ir.2 = v) df_filt)).

(** A row belongs to a group that [pivot_table] keeps: neither of its keys
    is missing (the [groupby] inside drops such rows) and the mean of its
    group is not NaN ([dropna=True] drops such groups). *)
Definition kept (df_filt : DataFrame L K N) (ir : L * row K N) : Prop :=
  isna (col_base ir.2) = false ∧ isna (col_var ir.2) = false ∧
  isnan (cell_mean df_filt (col_base ir.2) (col_var ir.2)) = false.

#[export] Instance kept_dec df_filt ir : Decision (kept df_filt ir).
Proof. unfold kept. apply _. Defined.

(** [df_filt.pivot_table(index=col_base, columns=col_var, values="Rango",
    aggfunc="mean")]: the labels of the groups kept, sorted, index the rows
    and the columns; the cell of a kept group is its mean, every other cell
    is NaN. *)
Definition pivot_table (df_filt : DataFrame L K N) : pivot K N :=
  let groups := filter (kept df_filt) df_filt in
  let index := merge_sort key_le (unique (column col_base groups)) in
  let columns := merge_sort key_le (unique (column col_var groups)) in
  Pivot index columns
    ((λ b, (λ v,
       if decide (filter (λ ir, col_base ir.2 = b ∧ col_var ir.2 = v)
                    groups = [])
       then num_nan else cell_mean df_filt b v) <$> columns) <$> index).

(** Lines 276-281. *)
Definition df_heat (df_filt : DataFrame L K N) : pivot K N :=
  pivot_table df_filt.

(** The cell of a pivot under a row position and a column position. *)
Definition pivot_cell (p : pivot K N) (i j : nat) : option N :=
  pivot_values p !! i ≫= (λ cells, cells !! j).

(** ** The page (sections 4 to 6) *)

(** The delta line of a metric: [f"{row[col_base]} – {row[col_var]}"]. *)
Definition delta (r : row K N) : string :=
  key_str (col_base r) +:+ " – " +:+ key_str (col_var r).

(** One metric of lines 101-123: the value of the KPI row in its column
    and the row's Base and Variable. When the lookup gave a frame in place
    of a row, the value is a Series and its [:.2f] format raises
    [TypeError]. *)
Definition kpi_metric (where_ : container) (label : string)
    (col : row K N → N) (kpi_row : row K N + DataFrame L K N)
  : script (widget L K N) unit :=
  match kpi_row with
  | inl r => emit where_ (metric label (col r) (delta r))
  | inr _ => lift (Raise TypeError)
  end.

(** Lines 92-123: the four KPI rows, then the four metrics. *)
Definition kpis (df_filt : DataFrame L K N) : script (widget L K N) unit :=
  lic_max ← lift (lic_max_row df_filt);
  lic_min ← lift (lic_min_row df_filt);
  lsc_max ← lift (lsc_max_row df_filt);
  lsc_min ← lift (lsc_min_row df_filt);
  kpi_metric (c 1) "LIC máximo" col_lic lic_max;;
  kpi_metric (c 2) "LIC mínimo" col_lic lic_min;;
  kpi_metric (c 3) "LSC máximo" col_lsc lsc_max;;
  kpi_metric (c 4) "LSC mínimo" col_lsc lsc_min.

(** Lines 145-189. *)
Definition tab1 (bases_sel : list K) (df_filt : DataFrame L K N)
  : script (widget L K N) unit :=
  emit (tab 1)
    (subheader "Límites LIC y LSC por Variable para una base específica");;
  match bases_sel with
  | [base_seleccionada] =>
      emit (tab 1)
        (write ("Base seleccionada: **" +:+ key_str base_seleccionada
                +:+ "**"));;
      let df_base := df_base df_filt base_seleccionada in
      if empty df_base then
        emit (tab 1)
          (warning
             "No hay datos para esta base con las variables seleccionadas.")
      else
        let df_melt := melt df_base in
        emit (tab 1)
          (plotly_chart (fig_bar_limits df_melt base_seleccionada))
  | _ =>
      emit (tab 1)
        (info "Para ver esta gráfica, selecciona **exactamente una** Base/FVT en la barra lateral.")
  end.

(** [df_filt[[col_base, col_var, col_lic, col_lsc, "Rango", "Centro"]]] *)
Definition datos_filtrados (df_filt : DataFrame L K N)
  : list (L * (K * K * N * N * option N * option N)) :=
  (λ ir, (ir.1, (col_base ir.2, col_var ir.2, col_lic ir.2, col_lsc ir.2,
                 Rango ir.2, Centro ir.2))) <$> df_filt.

(** Lines 195-267. *)
Definition tab2 (df_filt : DataFrame L K N) : script (widget L K N) unit :=
  emit (tab 2) (subheader "Comparación promedio LSC vs LIC por Variable");;
  let df_vars := df_vars df_filt in
  emit (tab 2)
    (plotly_chart
       (fig_detalle ((λ t, (t.1.1, t.1.2)) <$> df_vars)
                    ((λ t, (t.1.1, t.2)) <$> df_vars)));;
  emit (tab 2)
    (markdown "### Barras individuales de límites promedio por Variable");;
  emit (c_bar 1) (plotly_chart (fig_lic_bar df_vars));;
  emit (c_bar 2) (plotly_chart (fig_lsc_bar df_vars));;
  emit (tab 2) (markdown "### Datos filtrados");;
  emit (tab 2) (dataframe (datos_filtrados df_filt)).

(** Lines 273-292. *)
Definition tab3 (df_filt : DataFrame L K N) : script (widget L K N) unit :=
  emit (tab 3)
    (subheader
       "Mapa de calor del rango (LSC − LIC) por FVT/Base y Variable");;
  emit (tab 3) (plotly_chart (fig_heat (df_heat df_filt))).

(** Lines 74-292 on the loaded and derived frame [df], for the two
    selections the multiselect widgets return. *)
Definition page_body (df : DataFrame L K N) (bases_sel vars_sel : list K)
  : script (widget L K N) unit :=
  let df_filt := df_filt df bases_sel vars_sel in
  (if empty df_filt then
     emit page
       (warning
          "No hay datos para esta combinación de filtros. Ajusta la Base o Variable.");;
     stop
   else mret ());;
  let df_filt := assign_Rango df_filt in
  kpis df_filt;;
  emit page (markdown "---");;
  tab1 bases_sel df_filt;;
  tab2 df_filt;;
  tab3 df_filt.

(** The whole run on the frame read from the file. *)
Definition dashboard (read_csv : DataFrame L K N)
    (bases_sel vars_sel : list K) : script (widget L K N) unit :=
  page_body (df read_csv) bases_sel vars_sel.

(** ** Specification predicates *)

(** The derived cells of a row hold what the derivation assigns. *)
Definition rango_ok (ir : L * row K N) : Prop :=
  Rango ir.2 = Some (num_sub (col_lsc ir.2) (col_lic ir.2)).

Definition centro_ok (ir : L * row K N) : Prop :=
  Centro ir.2 = Some (num_half (num_add (col_lsc ir.2) (col_lic ir.2))).

(** A row is the first maximum of a column as [idxmax] sees the column,
    NaN counted as [-inf]: every earlier row is strictly below it and no
    later row is above it. For the first minimum NaN counts as [+inf]. *)
Definition first_max (col : row K N → N) (df : DataFrame L K N)
    (i : L) (r : row K N) : Prop :=
  ∃ l1 l2, df = l1 ++ (i, r) :: l2 ∧
    Forall (λ x, num_leb (fill_neg_inf (col r)) (fill_neg_inf (col x.2))
                 = false) l1 ∧
    Forall (λ x, num_leb (fill_neg_inf (col x.2)) (fill_neg_inf (col r))
                 = true) l2.

Definition first_min (col : row K N → N) (df : DataFrame L K N)
    (i : L) (r : row K N) : Prop :=
  ∃ l1 l2, df = l1 ++ (i, r) :: l2 ∧
    Forall (λ x, num_leb (fill_pos_inf (col x.2)) (fill_pos_inf (col r))
                 = false) l1 ∧
    Forall (λ x, num_leb (fill_pos_inf (col r)) (fill_pos_inf (col x.2))
                 = true) l2.
End model.

(** * Header names (lines 29-30) *)

(** [str.strip()] on a name, given as the list of its characters; [isspace]
    is the whitespace test of the string type. Leading whitespace goes,
    then trailing whitespace. *)
Fixpoint lstrip {C} (isspace : C → bool) (s : list C) : list C :=
  match s with
  | [] => []
  | ch :: s' => if isspace ch then lstrip isspace s' else s
  end.

Definition rstrip {C} (isspace : C → bool) (s : list C) : list C :=
  reverse (lstrip isspace (reverse s)).

Definition strip {C} (isspace : C → bool) (s : list C) : list C :=
  rstrip isspace (lstrip isspace s).

(** [df.columns = df.columns.str.strip()] *)
Definition columns_strip {C} (isspace : C → bool) (columns : list (list C))
  : list (list C) :=
  strip isspace <$> columns.

(** * The dtypes of a file with string keys and float64 limits *)

(** A cell of an [object] key column: a string, or NaN where the file has
    no value. *)
Inductive key :=
  | KStr (s : string)
  | KNaN.

#[export] Instance key_eq : EqDecision key.
Proof. solve_decision. Defined.

Definition key_isna (k : key) : bool :=
  match k with KNaN => true | KStr _ => false end.

(** Strings in code point order, the missing key last (pandas sorts it
    last; a [groupby] never sees it). *)
Definition key_order (a b : key) : Prop :=
  match a, b with
  | KStr x, KStr y => String.le x y
  | _, KNaN => True
  | KNaN, KStr _ => False
  end.

#[export] Instance key_order_dec : RelDecision key_order.
Proof. intros [x|] [y|]; cbn; apply _. Defined.

(** Python's [sorted] on such cells: comparing a string with NaN (a float)
    is a [TypeError]; strings alone are sorted, NaN alone stays. *)
Definition key_sorted (l : list key) : result (list key) :=
  if existsb key_isna l && existsb (λ k, negb (key_isna k)) l
  then Raise TypeError
  else Ok (merge_sort key_order l).

Definition key_repr (k : key) : string :=
  match k with KStr s => s | KNaN => "nan" end.

#[export] Instance key_dtype : KeyDtype key := {|
  key_eq_dec := key_eq;
  isna := key_isna;
  key_le := key_order;
  key_le_dec := key_order_dec;
  py_sorted := key_sorted;
  key_str := key_repr
|}.

(** The number of values of a group as a float64. *)
Definition float_of_nat (n : nat) : float :=
  PrimFloat.of_uint63 (Uint63.of_Z (Z.of_nat n)).

(** The sum inside pandas' group mean: Kahan summation over the values
    that are not NaN, with their count. *)
Fixpoint kahan (sumx compensation : float) (nobs : nat) (l : list float)
  : float * nat :=
  match l with
  | [] => (sumx, nobs)
  | val :: l =>
      if is_nan val then kahan sumx compensation nobs l
      else
        let y := (val - compensation)%float in
        let t := (sumx + y)%float in
        let c' := (t - sumx - y)%float in
        kahan t (if is_nan c' then 0%float else c') (S nobs) l
  end.

(** The mean of a group: NaN when no value is present. *)
Definition float_mean (l : list float) : float :=
  let '(sumx, nobs) := kahan 0 0 0 l in
  match nobs with
  | O => nan
  | _ => (sumx / float_of_nat nobs)%float
  end.

#[export] Instance float64 : NumDtype float := {|
  num_sub := PrimFloat.sub;
  num_add := PrimFloat.add;
  num_half := λ x, (x / 2)%float;
  isnan := is_nan;
  num_leb := PrimFloat.leb;
  fill_neg_inf := λ x, if is_nan x then neg_infinity else x;
  fill_pos_inf := λ x, if is_nan x then infinity else x;
  num_nan := nan;
  num_mean := float_mean
|}.

(** The real number a float64 stands for, when it is finite. *)
Definition exact (x : float) : option Q :=
  match Prim2SF x with
  | S754_zero _ => Some 0%Q
  | S754_finite s m e =>
      Some (inject_Z (if s then Z.neg m else Z.pos m) * 2 ^ e)%Q
  | _ => None
  end.

(** A row of such a file as [read_csv] types it, and the frame of a file
    without an index column: the rows under a [RangeIndex]. *)
Definition fila (base var : key) (lic lsc : float) : row key float :=
  Row base var lic lsc None None [].

Definition range_index (rows : list (row key float))
  : DataFrame nat key float :=
  zip (seq 0 (length rows)) rows.

(** * Example files

    Small files with string keys and float64 limits, under the index
    [read_csv] gives a file without index column. *)

(** Two Bases measured on one Variable. *)
Definition ejemplo_medias : DataFrame nat key float :=
  range_index [fila (KStr "A") (KStr "X") 10 20;
               fila (KStr "B") (KStr "X") 14 22].

(** Two rows that share the maximum LIC. *)
Definition ejemplo_empate : DataFrame nat key float :=
  range_index [fila (KStr "A") (KStr "X") 10 20;
               fila (KStr "B") (KStr "Y") 10 12].

(** The limits 0.1 and 0.3, and the limits 2^-70 and 1, as float64 holds
    them. *)
Definition ejemplo_decimales : DataFrame nat key float :=
  range_index [fila (KStr "A") (KStr "X")
                 0x1.999999999999ap-4 0x1.3333333333333p-2;
               fila (KStr "A") (KStr "Y") 0x1p-70 1].

(** Three rows of one Variable, each with the LIC 0.1. *)
Definition ejemplo_tercios : DataFrame nat key float :=
  range_index [fila (KStr "A") (KStr "X") 0x1.999999999999ap-4 1;
               fila (KStr "B") (KStr "X") 0x1.999999999999ap-4 1;
               fila (KStr "C") (KStr "X") 0x1.999999999999ap-4 1].

(** A file whose only row has no LIC. *)
Definition ejemplo_sin_limite : DataFrame nat key float :=
  range_index [fila (KStr "A") (KStr "X") nan 20].

(** A row without LIC beside a complete row. *)
Definition ejemplo_hueco : DataFrame nat key float :=
  range_index [fila (KStr "A") (KStr "X") nan 20;
               fila (KStr "B") (KStr "X") 1 2].

(** A row without Variable, and a row without Base. *)
Definition ejemplo_sin_variable : DataFrame nat key float :=
  range_index [fila (KStr "A") KNaN 10 20].

Definition ejemplo_sin_base : DataFrame nat key float :=
  range_index [fila KNaN (KStr "X") 1 2].

(** A row without Base beside a complete row. *)
Definition ejemplo_mezcla : DataFrame nat key float :=
  range_index [fila (KStr "A") (KStr "X") 10 20;
               fila KNaN (KStr "X") 14 22].

(** The NaN test on the decoded form of a float64. *)
Definition sf_nan (a : spec_float) : bool :=
  match a with S754_nan => true | _ => false end.

(** Case analysis on the exponent and mantissa comparisons of a goal. *)
Ltac sf_cases :=
  repeat match goal with
  | H : context [(?a ?= ?b)%Z] |- _ => destruct (Z.compare_spec a b)
  | H : context [(?a ?= ?b)%positive] |- _ => destruct (Pos.compare_spec a b)
  | |- context [(?a ?= ?b)%Z] => destruct (Z.compare_spec a b)
  | |- context [(?a ?= ?b)%positive] => destruct (Pos.compare_spec a b)
  end; cbn in *; subst; try done; try lia.

(** * Boolean indexing is list filtering *)

Section masks.
Context {L K N : Type} `{!EqDecision L, !KeyDtype K, !NumDtype N}.
Implicit Types (d : DataFrame L K N) (bases_sel vars_sel : list K).

Lemma getitem_mask_fmap (p : L * row K N → bool) d :
  getitem_mask d (p <$> d) = filter (λ ir, p ir = true) d.
Proof.
  induction d as [|ir d IH]; [done|].
  cbn [fmap list_fmap getitem_mask]. rewrite filter_cons.
  destruct (p ir) eqn:E; case_decide; try congruence; by rewrite IH.
Qed.

Lemma selection_mask d bases_sel vars_sel :
  mask_and (isin (column col_base d) bases_sel)
           (isin (column col_var d) vars_sel)
  = (λ ir, bool_decide (col_base ir.2 ∈ bases_sel)
           && bool_decide (col_var ir.2 ∈ vars_sel)) <$> d.
Proof.
  unfold mask_and, isin, column.
  induction d as [|ir d IH]; [done|]. cbn. by rewrite <- IH.
Qed.

(** Lines 74-77 keep exactly the rows that pass both membership tests. *)
Lemma df_filt_filter d bases_sel vars_sel :
  df_filt d bases_sel vars_sel
  = filter (λ ir, col_base ir.2 ∈ bases_sel ∧ col_var ir.2 ∈ vars_sel) d.
Proof.
  unfold df_filt. rewrite selection_mask, getitem_mask_fmap.
  apply list_filter_iff. intros ir.
  rewrite andb_true_iff, !bool_decide_eq_true. done.
Qed.

(** Line 152 keeps the rows whose Base is the selected one and is not the
    missing key. *)
Lemma df_base_filter d (base_seleccionada : K) :
  df_base d base_seleccionada
  = filter (λ ir, col_base ir.2 = base_seleccionada
                  ∧ isna (col_base ir.2) = false) d.
Proof.
  unfold df_base, column. rewrite <- list_fmap_compose.
  change (getitem_mask d
            ((λ ir, bool_decide (col_base ir.2 = base_seleccionada)
                    && negb (isna (col_base ir.2))) <$> d)
          = filter (λ ir, col_base ir.2 = base_seleccionada
                          ∧ isna (col_base ir.2) = false) d).
  rewrite getitem_mask_fmap.
  apply list_filter_iff. intros ir. cbn.
  rewrite andb_true_iff, bool_decide_eq_true, negb_true_iff. done.
Qed.

Lemma filter_iff_on {A} (P1 P2 : A → Prop)
    `{!∀ x, Decision (P1 x), !∀ x, Decision (P2 x)} (l : list A) :
  (∀ x, x ∈ l → P1 x ↔ P2 x) → filter P1 l = filter P2 l.
Proof.
  induction l as [|a l IH]; intros Hl; [done|].
  assert (P1 a ↔ P2 a) as Ha by (apply Hl; left).
  assert (filter P1 l = filter P2 l) as IH'
    by (apply IH; intros x Hx; apply Hl; by right).
  rewrite !filter_cons, IH'. repeat case_decide; tauto.
Qed.

Lemma filter_all {A} (P : A → Prop) `{!∀ x, Decision (P x)} (l : list A) :
  Forall P l → filter P l = l.
Proof.
  induction 1 as [|x l Hx _ IH]; [done|].
  by rewrite filter_cons_True, IH.
Qed.

Lemma filter_none {A} (P : A → Prop) `{!∀ x, Decision (P x)} (l : list A) :
  Forall (λ x, ¬ P x) l → filter P l = [].
Proof.
  induction 1 as [|x l Hx _ IH]; [done|].
  by rewrite filter_cons_False, IH.
Qed.

Lemma empty_nil d : empty d = true ↔ d = [].
Proof. by destruct d. Qed.
End masks.

(** * Index labels *)

Section labels.
Context {L K N : Type} `{!EqDecision L, !KeyDtype K, !NumDtype N}.
Implicit Types (d : DataFrame L K N) (bases_sel vars_sel : list K).

Lemma assign_Rango_labels d : (assign_Rango d).*1 = d.*1.
Proof. unfold assign_Rango. rewrite <- list_fmap_compose. done. Qed.

Lemma assign_Centro_labels d : (assign_Centro d).*1 = d.*1.
Proof. unfold assign_Centro. rewrite <- list_fmap_compose. done. Qed.

Lemma df_labels d : (df d).*1 = d.*1.
Proof.
  unfold df, derive, load_data.
  by rewrite assign_Centro_labels, assign_Rango_labels.
Qed.

Lemma df_filt_sublist d bases_sel vars_sel :
  df_filt d bases_sel vars_sel `sublist_of` d.
Proof. rewrite df_filt_filter. apply sublist_filter. Qed.

Lemma df_filt_labels d bases_sel vars_sel :
  NoDup d.*1 → NoDup (df_filt d bases_sel vars_sel).*1.
Proof.
  intros Hnd. eapply sublist_NoDup; [exact Hnd|].
  apply fmap_sublist, df_filt_sublist.
Qed.

Lemma filtered_labels d bases_sel vars_sel :
  NoDup d.*1 →
  NoDup (assign_Rango (df_filt (df d) bases_sel vars_sel)).*1.
Proof.
  intros Hnd. rewrite assign_Rango_labels. apply df_filt_labels.
  by rewrite df_labels.
Qed.

Lemma assign_Rango_nil d : assign_Rango d = [] ↔ d = [].
Proof. unfold assign_Rango. by destruct d. Qed.

(** Under distinct labels, [loc] finds the one row of a label. *)
Lemma loc_unique d d1 i r d2 :
  NoDup d.*1 → d = d1 ++ (i, r) :: d2 → loc d i = Ok (inl r).
Proof.
  intros Hnd ->. unfold loc.
  rewrite fmap_app, fmap_cons in Hnd.
  apply NoDup_app in Hnd as (_ & Hd1 & Hd2).
  apply NoDup_cons in Hd2 as [Hi _]. cbn in Hd1, Hi.
  rewrite filter_app, filter_cons_True by done.
  assert (∀ d' : DataFrame L K N,
            i ∉ d'.*1 → filter (λ ir, ir.1 = i) d' = []) as Hnil.
  { intros d'. induction d' as [|x d' IH]; intros Hd; [done|].
    rewrite fmap_cons, not_elem_of_cons in Hd. destruct Hd as [Hx Hd].
    rewrite filter_cons_False by congruence. by apply IH. }
  rewrite (Hnil d2) by done. rewrite (Hnil d1); [done|].
  intros Hin. apply (Hd1 i); [done|]. left.
Qed.

Lemma loc_missing d i : i ∉ d.*1 → loc d i = Raise KeyError.
Proof.
  intros Hi. unfold loc.
  assert (filter (λ ir : L * row K N, ir.1 = i) d = []) as ->; [|done].
  induction d as [|x d IH]; [done|].
  rewrite fmap_cons, not_elem_of_cons in Hi. destruct Hi as [Hx Hi].
  rewrite filter_cons_False by congruence. by apply IH.
Qed.
End labels.

(** * The scan returns the first best entry *)

Section scan.
Context {L N : Type}.
Variable keep : N → N → bool.
(** [R v best]: [v] is not better than [best]; [P]: the values scanned. *)
Variable R : N → N → Prop.
Variable P : N → Prop.
Hypothesis keep_spec : ∀ best v, keep best v = true ↔ R v best.
Hypothesis R_trans : ∀ x y z, R x y → R y z → R x z.
Hypothesis R_total : ∀ x y, P x → P y → R x y ∨ R y x.

(** The entry chosen splits the series: everything before it is strictly
    worse, nothing after it is better. *)
Lemma scan_split (s : list (L * N)) (best : L * N) :
  P best.2 → Forall (λ x, P x.2) s →
  ∃ l1 v l2,
    best :: s = l1 ++ (scan keep best s, v) :: l2 ∧
    Forall (λ x, ¬ R v x.2) l1 ∧ Forall (λ x, R x.2 v) l2.
Proof.
  revert best. induction s as [|x s IH]; intros [i b] Hb Hs.
  { exists [], b, []. by repeat split. }
  apply Forall_cons in Hs as [Hx Hs].
  cbn [scan]. destruct (keep (i, b).2 x.2) eqn:E.
  - apply keep_spec in E. cbn in E.
    destruct (IH (i, b) Hb Hs) as (l1 & v & l2 & Heq & H1 & H2).
    destruct l1 as [|y l1]; cbn in Heq.
    + injection Heq as Hi Hv Hl. subst v l2.
      exists [], b, (x :: s). cbn. rewrite <- Hi.
      split; [done|]. split; [constructor|]. by constructor.
    + injection Heq as Hy Hl. subst y.
      exists ((i, b) :: x :: l1), v, l2. cbn.
      split; [do 2 f_equal; exact Hl|]. split; [|done].
      apply Forall_cons in H1 as [Hvb H1]. cbn in Hvb.
      repeat (constructor; [|try done]); cbn; eauto.
  - assert (¬ R x.2 b) as Hxb
      by (rewrite <- keep_spec; cbn in E; congruence).
    assert (R b x.2) as Hbx by (destruct (R_total b x.2 Hb Hx); tauto).
    destruct (IH x Hx Hs) as (l1 & v & l2 & Heq & H1 & H2).
    exists ((i, b) :: l1), v, l2. cbn.
    split; [f_equal; exact Heq|]. split; [|done].
    constructor; [|done]. cbn. intros Hv. destruct l1 as [|y l1]; cbn in Heq.
    + injection Heq as Hxv Hl. apply Hxb. rewrite Hxv. done.
    + injection Heq as Hy Hl. subst y.
      apply Forall_cons in H1 as [Hvx _]. eauto.
Qed.
End scan.

(** * [idxmax] and [idxmin] *)

Section extremes.
Context {L K N : Type} `{!EqDecision L, !KeyDtype K, !NumDtype N, !NumLaws N}.
Implicit Types (d : DataFrame L K N) (col : row K N → N).

(** Splitting a mapped frame at an entry splits the frame at a row. *)
Lemma fmap_split {A B} (f : A → B) (l : list A) l1 y l2 :
  f <$> l = l1 ++ y :: l2 →
  ∃ k1 x k2, l = k1 ++ x :: k2 ∧ f x = y ∧ l1 = f <$> k1 ∧ l2 = f <$> k2.
Proof.
  intros H0.
  apply fmap_app_inv in H0 as (k1 & k' & -> & H0 & ->).
  symmetry in H0. apply fmap_cons_inv in H0 as (x & k2 & ? & -> & ->).
  by exists k1, x, k2.
Qed.

Lemma forallb_isnan_false col d :
  Exists (λ ir, isnan (col ir.2) = false) d →
  forallb (λ x : L * N, isnan x.2) (series col d) = false.
Proof.
  induction 1 as [ir d Hn|ir d _ IH]; cbn.
  - by rewrite Hn.
  - unfold series in IH. rewrite IH. apply andb_false_r.
Qed.

Lemma forallb_isnan_true col d :
  Forall (λ ir, isnan (col ir.2) = true) d →
  forallb (λ x : L * N, isnan x.2) (series col d) = true.
Proof.
  induction 1 as [|ir d Hn _ IH]; cbn; [done|].
  unfold series in IH. by rewrite Hn, IH.
Qed.

Lemma idxmax_first col d :
  Exists (λ ir, isnan (col ir.2) = false) d →
  ∃ i r, idxmax (series col d) = Ok i ∧ first_max col d i r.
Proof.
  intros Hex. unfold idxmax. rewrite forallb_isnan_false by done.
  unfold series. rewrite <- list_fmap_compose.
  destruct d as [|[i0 r0] d]; [by apply Exists_nil in Hex|].
  change (((λ x : L * N, (x.1, fill_neg_inf x.2)) ∘ (λ ir, (ir.1, col ir.2)))
            <$> (i0, r0) :: d)
    with ((i0, fill_neg_inf (col r0))
            :: ((λ ir : L * row K N, (ir.1, fill_neg_inf (col ir.2))) <$> d)).
  destruct (scan_split (L := L) (λ best v, num_leb v best)
              (λ v best, num_leb v best = true) (λ v, isnan v = false))
    with (s := (λ ir : L * row K N, (ir.1, fill_neg_inf (col ir.2))) <$> d)
         (best := (i0, fill_neg_inf (col r0)))
    as (l1 & v & l2 & Heq & H1 & H2).
  { done. }
  { intros x y z. apply num_leb_trans. }
  { intros x y. apply num_leb_total. }
  { apply fill_neg_inf_notnan. }
  { rewrite Forall_fmap. apply Forall_true. intros x. apply fill_neg_inf_notnan. }
  change ((i0, fill_neg_inf (col r0))
            :: ((λ ir : L * row K N, (ir.1, fill_neg_inf (col ir.2))) <$> d))
    with ((λ ir : L * row K N, (ir.1, fill_neg_inf (col ir.2)))
            <$> (i0, r0) :: d) in Heq.
  apply fmap_split in Heq as (d1 & [i r] & d2 & Hd & Hx & -> & ->).
  injection Hx as Hi Hv. cbn in Hi, Hv. rewrite <- Hi.
  exists i, r. split; [done|]. exists d1, d2. split; [done|].
  rewrite Forall_fmap in H1, H2. subst v. split.
  - eapply Forall_impl; [exact H1|]. intros x Hx. cbn in Hx.
    by apply not_true_is_false.
  - done.
Qed.

Lemma idxmin_first col d :
  Exists (λ ir, isnan (col ir.2) = false) d →
  ∃ i r, idxmin (series col d) = Ok i ∧ first_min col d i r.
Proof.
  intros Hex. unfold idxmin. rewrite forallb_isnan_false by done.
  unfold series. rewrite <- list_fmap_compose.
  destruct d as [|[i0 r0] d]; [by apply Exists_nil in Hex|].
  change (((λ x : L * N, (x.1, fill_pos_inf x.2)) ∘ (λ ir, (ir.1, col ir.2)))
            <$> (i0, r0) :: d)
    with ((i0, fill_pos_inf (col r0))
            :: ((λ ir : L * row K N, (ir.1, fill_pos_inf (col ir.2))) <$> d)).
  destruct (scan_split (L := L) (λ best v, num_leb best v)
              (λ v best, num_leb best v = true) (λ v, isnan v = false))
    with (s := (λ ir : L * row K N, (ir.1, fill_pos_inf (col ir.2))) <$> d)
         (best := (i0, fill_pos_inf (col r0)))
    as (l1 & v & l2 & Heq & H1 & H2).
  { done. }
  { intros x y z ??. by apply num_leb_trans with y. }
  { intros x y ??. destruct (num_leb_total x y); tauto. }
  { apply fill_pos_inf_notnan. }
  { rewrite Forall_fmap. apply Forall_true. intros x. apply fill_pos_inf_notnan. }
  change ((i0, fill_pos_inf (col r0))
            :: ((λ ir : L * row K N, (ir.1, fill_pos_inf (col ir.2))) <$> d))
    with ((λ ir : L * row K N, (ir.1, fill_pos_inf (col ir.2)))
            <$> (i0, r0) :: d) in Heq.
  apply fmap_split in Heq as (d1 & [i r] & d2 & Hd & Hx & -> & ->).
  injection Hx as Hi Hv. cbn in Hi, Hv. rewrite <- Hi.
  exists i, r. split; [done|]. exists d1, d2. split; [done|].
  rewrite Forall_fmap in H1, H2. subst v. split.
  - eapply Forall_impl; [exact H1|]. intros x Hx. cbn in Hx.
    by apply not_true_is_false.
  - done.
Qed.

(** A column of NaN only has no extreme: the lookup raises. *)
Lemma idxmax_all_nan col d :
  Forall (λ ir, isnan (col ir.2) = true) d →
  idxmax (series col d) = Raise ValueError.
Proof. intros Hall. unfold idxmax. by rewrite forallb_isnan_true. Qed.

Lemma idxmin_all_nan col d :
  Forall (λ ir, isnan (col ir.2) = true) d →
  idxmin (series col d) = Raise ValueError.
Proof. intros Hall. unfold idxmin. by rewrite forallb_isnan_true. Qed.
End extremes.

(** * Distinct keys and group keys *)

Section keys.
Context {K : Type} `{!KeyDtype K}.
Implicit Types (l : list K).

Lemma elem_of_unique l x : x ∈ unique l ↔ x ∈ l.
Proof.
  induction l as [|y l IH]; [done|]. cbn [unique].
  rewrite !elem_of_cons, list_elem_of_filter, IH.
  destruct (decide (x = y)); tauto.
Qed.

Lemma NoDup_unique l : NoDup (unique l).
Proof.
  induction l as [|y l IH]; cbn [unique]; [constructor|].
  constructor; [|by apply NoDup_filter].
  rewrite list_elem_of_filter. by intros [Hy _].
Qed.

Lemma elem_of_group_keys l x : x ∈ group_keys l ↔ x ∈ l ∧ isna x = false.
Proof.
  unfold group_keys.
  rewrite merge_sort_Permutation, elem_of_unique, list_elem_of_filter. tauto.
Qed.

Lemma NoDup_group_keys l : NoDup (group_keys l).
Proof.
  unfold group_keys. rewrite merge_sort_Permutation. apply NoDup_unique.
Qed.

Lemma sorted_group_keys `{!KeyLaws K} l :
  StronglySorted key_le (group_keys l).
Proof. apply StronglySorted_merge_sort; apply _. Qed.
End keys.

(** * Group means *)

Section means.
Context {L K N : Type}
  `{!EqDecision L, !KeyDtype K, !NumDtype N, !KeyLaws K}.
Implicit Types (d : DataFrame L K N).

(** Sorting the grouped frame by its key leaves it as [groupby] built it. *)
Lemma df_vars_groupby d : df_vars d = groupby_mean d.
Proof.
  unfold df_vars, sort_values.
  assert (Transitive (by_key (K := K) (N := N)))
    by (intros a b d' ??; unfold by_key in *; by etrans).
  assert (Total (by_key (K := K) (N := N)))
    by (intros a b; unfold by_key; apply (total key_le)).
  apply (StronglySorted_unique_strong by_key).
  - intros x1 x2 Hx1 Hx2 H12 H21.
    rewrite merge_sort_Permutation in Hx1. unfold groupby_mean in Hx1, Hx2.
    apply list_elem_of_fmap in Hx1 as (v1 & -> & _).
    apply list_elem_of_fmap in Hx2 as (v2 & -> & _).
    unfold by_key in H12, H21. cbn in H12, H21.
    assert (v1 = v2) as -> by (by apply (anti_symm key_le)). done.
  - by apply StronglySorted_merge_sort.
  - unfold groupby_mean.
    eapply StronglySorted_fmap; [|apply sorted_group_keys].
    intros x y Hxy. exact Hxy.
  - apply merge_sort_Permutation.
Qed.

(** The keys of the grouped frame are the group keys of the column. *)
Lemma df_vars_keys d :
  (λ t, t.1.1) <$> df_vars d = group_keys (column col_var d).
Proof.
  rewrite df_vars_groupby. unfold groupby_mean.
  rewrite <- list_fmap_compose.
  rewrite (list_fmap_ext _ id (group_keys (column col_var d))) by done.
  apply list_fmap_id.
Qed.
End means.

(** * Derived columns are functions of the limits *)

Section derived.
Context {L K N : Type} `{!EqDecision L, !KeyDtype K, !NumDtype N}.
Implicit Types (d : DataFrame L K N) (bases_sel vars_sel : list K).

Lemma assign_Rango_ok d : Forall rango_ok (assign_Rango d).
Proof. unfold assign_Rango. rewrite Forall_fmap. by apply Forall_true. Qed.

Lemma assign_Centro_ok d : Forall centro_ok (assign_Centro d).
Proof. unfold assign_Centro. rewrite Forall_fmap. by apply Forall_true. Qed.

Lemma assign_Centro_keeps_Rango d :
  Forall rango_ok d → Forall rango_ok (assign_Centro d).
Proof.
  unfold assign_Centro. rewrite Forall_fmap. intros Hd.
  eapply Forall_impl; [exact Hd|]. by intros [].
Qed.

Lemma assign_Rango_keeps_Centro d :
  Forall centro_ok d → Forall centro_ok (assign_Rango d).
Proof.
  unfold assign_Rango. rewrite Forall_fmap. intros Hd.
  eapply Forall_impl; [exact Hd|]. by intros [].
Qed.

(** Assigning a column that already holds the assigned values changes
    nothing. *)
Lemma assign_Rango_id d : Forall rango_ok d → assign_Rango d = d.
Proof.
  unfold assign_Rango, rango_ok.
  induction 1 as [|[i [b v l u rg ce px]] d Hr _ IH]; [done|].
  cbn in *. rewrite IH. unfold set_Rango. cbn. by rewrite Hr.
Qed.

Lemma assign_Centro_id d : Forall centro_ok d → assign_Centro d = d.
Proof.
  unfold assign_Centro, centro_ok.
  induction 1 as [|[i [b v l u rg ce px]] d Hr _ IH]; [done|].
  cbn in *. rewrite IH. unfold set_Centro. cbn. by rewrite Hr.
Qed.

Lemma derive_ok d : Forall (λ ir, rango_ok ir ∧ centro_ok ir) (derive d).
Proof.
  apply Forall_and. split.
  - apply assign_Centro_keeps_Rango, assign_Rango_ok.
  - apply assign_Centro_ok.
Qed.

Lemma derive_id d :
  Forall (λ ir, rango_ok ir ∧ centro_ok ir) d → derive d = d.
Proof.
  intros [Hr Hc]%Forall_and. unfold derive.
  by rewrite (assign_Rango_id d Hr), (assign_Centro_id d Hc).
Qed.

Lemma Forall_df_filt (P : L * row K N → Prop) d bases_sel vars_sel :
  Forall P d → Forall P (df_filt d bases_sel vars_sel).
Proof.
  rewrite !Forall_forall. intros Hd ir Hir. apply Hd.
  rewrite df_filt_filter, list_elem_of_filter in Hir. tauto.
Qed.

Lemma filtered_row_selected d bases_sel vars_sel ir :
  ir ∈ assign_Rango (df_filt d bases_sel vars_sel) →
  col_base ir.2 ∈ bases_sel ∧ col_var ir.2 ∈ vars_sel.
Proof.
  unfold assign_Rango. intros (x & -> & Hx)%list_elem_of_fmap.
  rewrite df_filt_filter, list_elem_of_filter in Hx. cbn. tauto.
Qed.

Lemma omap_Rango d :
  Forall rango_ok d →
  omap (λ ir, Rango ir.2) d
  = (λ ir, num_sub (col_lsc ir.2) (col_lic ir.2)) <$> d.
Proof.
  induction 1 as [|ir d Hr _ IH]; [done|].
  cbn. unfold rango_ok in Hr. rewrite Hr. cbn. by rewrite IH.
Qed.

Lemma cell_mean_ok d b v :
  Forall rango_ok d →
  cell_mean d b v
  = num_mean ((λ ir, num_sub (col_lsc ir.2) (col_lic ir.2))
                <$> filter (λ ir, col_base ir.2 = b ∧ col_var ir.2 = v) d).
Proof.
  intros Hd. unfold cell_mean. rewrite omap_Rango; [done|].
  rewrite Forall_forall in *. intros ir Hir. apply Hd.
  rewrite list_elem_of_filter in Hir. tauto.
Qed.
End derived.

(** * The pivot of the heatmap *)

Section heat.
Context {L K N : Type} `{!EqDecision L, !KeyDtype K, !NumDtype N}.
Implicit Types (d : DataFrame L K N).

Lemma elem_of_pivot_index d b :
  b ∈ pivot_index (pivot_table d) ↔
  ∃ ir, ir ∈ d ∧ col_base ir.2 = b ∧ kept d ir.
Proof.
  unfold pivot_table, column. cbn.
  rewrite merge_sort_Permutation, elem_of_unique, list_elem_of_fmap.
  split.
  - intros (ir & -> & Hir). apply list_elem_of_filter in Hir as [Hs Hir].
    by exists ir.
  - intros (ir & Hir & <- & Hs). exists ir. split; [done|].
    by apply list_elem_of_filter.
Qed.

Lemma elem_of_pivot_columns d v :
  v ∈ pivot_columns (pivot_table d) ↔
  ∃ ir, ir ∈ d ∧ col_var ir.2 = v ∧ kept d ir.
Proof.
  unfold pivot_table, column. cbn.
  rewrite merge_sort_Permutation, elem_of_unique, list_elem_of_fmap.
  split.
  - intros (ir & -> & Hir). apply list_elem_of_filter in Hir as [Hs Hir].
    by exists ir.
  - intros (ir & Hir & <- & Hs). exists ir. split; [done|].
    by apply list_elem_of_filter.
Qed.

Lemma pivot_cell_lookup d i j b v :
  pivot_index (pivot_table d) !! i = Some b →
  pivot_columns (pivot_table d) !! j = Some v →
  pivot_cell (pivot_table d) i j =
    Some (if decide (filter (λ ir, col_base ir.2 = b ∧ col_var ir.2 = v)
                       (filter (kept d) d) = [])
          then num_nan else cell_mean d b v).
Proof.
  unfold pivot_cell, pivot_table. cbn. intros Hi Hj.
  rewrite list_lookup_fmap, Hi. cbn.
  by rewrite list_lookup_fmap, Hj.
Qed.

(** The rows of a pair of keys that are kept: all of them or none. *)
Lemma kept_group d b v :
  filter (λ ir, col_base ir.2 = b ∧ col_var ir.2 = v) (filter (kept d) d)
  = if decide (isna b = false ∧ isna v = false
               ∧ isnan (cell_mean d b v) = false)
    then filter (λ ir, col_base ir.2 = b ∧ col_var ir.2 = v) d
    else [].
Proof.
  rewrite list_filter_filter. case_decide as Hk.
  - apply filter_iff_on. intros ir _. unfold kept.
    split; [tauto|]. intros [Hb Hv]. rewrite Hb, Hv. tauto.
  - apply filter_none, Forall_forall. intros ir _ [[Hb Hv] Hkept].
    apply Hk. unfold kept in Hkept. by rewrite Hb, Hv in Hkept.
Qed.
End heat.

(** * The trace of a run *)

Section trace.
Context {L K N : Type} `{!EqDecision L, !KeyDtype K, !NumDtype N}.
Implicit Types (d : DataFrame L K N) (bases_sel vars_sel : list K).

Lemma script_bind_Ok {W A B} (m : script W A) (f : A → script W B) a :
  m.2 = Ok a → m ≫= f = (m.1 ++ (f a).1, (f a).2).
Proof. unfold mbind, script_mbind, script_bind. by intros ->. Qed.

Lemma script_bind_not_Ok {W A B} (m : script W A) (f : A → script W B) :
  (∀ a, m.2 ≠ Ok a) →
  (m ≫= f).1 = m.1 ∧ ∀ b, (m ≫= f).2 ≠ Ok b.
Proof.
  unfold mbind, script_mbind, script_bind. intros Hm.
  destruct m as [t [a| |e]]; cbn in *; [by destruct (Hm a)|done..].
Qed.

Lemma emit_bind {W B} (k : container) (w : W) (f : unit → script W B) :
  emit k w ≫= f = ((k, w) :: (f ()).1, (f ()).2).
Proof. done. Qed.

Lemma tab1_Ok bases_sel d : (tab1 bases_sel d).2 = Ok ().
Proof.
  unfold tab1. rewrite emit_bind. cbn [snd].
  destruct bases_sel as [|b [|b' l]]; try done.
  rewrite emit_bind. cbn [snd]. by destruct (empty _).
Qed.

Lemma tab2_Ok d : (tab2 d).2 = Ok ().
Proof. done. Qed.

Lemma tab3_Ok d : (tab3 d).2 = Ok ().
Proof. done. Qed.

Lemma kpis_trace d r1 r2 r3 r4 :
  lic_max_row d = Ok (inl r1) → lic_min_row d = Ok (inl r2) →
  lsc_max_row d = Ok (inl r3) → lsc_min_row d = Ok (inl r4) →
  kpis d =
    ([(c 1, metric "LIC máximo" (col_lic r1) (delta r1));
      (c 2, metric "LIC mínimo" (col_lic r2) (delta r2));
      (c 3, metric "LSC máximo" (col_lsc r3) (delta r3));
      (c 4, metric "LSC mínimo" (col_lsc r4) (delta r4))], Ok ()).
Proof. unfold kpis. by intros -> -> -> ->. Qed.

(** The KPI block returns, or the run ends in it. *)
Lemma kpis_result d : (kpis d).2 = Ok () ∨ ∀ u, (kpis d).2 ≠ Ok u.
Proof. destruct (kpis d).2 as [[]| |e]; [by left|by right..]. Qed.

(** The KPI block writes into the four KPI columns only. *)
Lemma kpis_containers d : Forall (λ cw, ∃ n, cw.1 = c n) (kpis d).1.
Proof.
  unfold kpis, lift.
  destruct (lic_max_row d) as [[r1|f1]| |e1]; [| |by constructor..];
  (destruct (lic_min_row d) as [[r2|f2]| |e2]; [| |by constructor..]);
  (destruct (lsc_max_row d) as [[r3|f3]| |e3]; [| |by constructor..]);
  (destruct (lsc_min_row d) as [[r4|f4]| |e4]; [| |by constructor..]);
  cbn; repeat constructor; cbn; eauto.
Qed.

Lemma kpis_not_tab1 d (w : widget L K N) : (tab 1, w) ∉ (kpis d).1.
Proof.
  intros Hin. pose proof (kpis_containers d) as Hc.
  rewrite Forall_forall in Hc. by destruct (Hc _ Hin) as [n Hn].
Qed.

Lemma page_body_stop d bases_sel vars_sel :
  df_filt d bases_sel vars_sel = [] →
  page_body d bases_sel vars_sel =
    ([(page, warning "No hay datos para esta combinación de filtros. Ajusta la Base o Variable.")],
     Stop).
Proof. unfold page_body. by intros ->. Qed.

(** Over a non-empty filtered frame, once the KPI block has returned, the
    rule and the three tabs are written and the run returns. *)
Lemma page_body_run d bases_sel vars_sel :
  df_filt d bases_sel vars_sel ≠ [] →
  (kpis (assign_Rango (df_filt d bases_sel vars_sel))).2 = Ok () →
  page_body d bases_sel vars_sel =
    ((kpis (assign_Rango (df_filt d bases_sel vars_sel))).1
       ++ (page, markdown "---") ::
       (tab1 bases_sel (assign_Rango (df_filt d bases_sel vars_sel))).1 ++
       (tab2 (assign_Rango (df_filt d bases_sel vars_sel))).1 ++
       (tab3 (assign_Rango (df_filt d bases_sel vars_sel))).1, Ok ()).
Proof.
  intros Hne Hk. unfold page_body.
  set (dff := assign_Rango (df_filt d bases_sel vars_sel)) in *.
  destruct (df_filt d bases_sel vars_sel) eqn:E; [done|].
  cbn [empty].
  rewrite (script_bind_Ok (mret ()) _ ()) by done. cbn [fst app].
  rewrite (script_bind_Ok (kpis dff) _ ()) by done.
  rewrite emit_bind. cbn [fst snd].
  rewrite (script_bind_Ok (tab1 bases_sel dff) _ ()) by apply tab1_Ok.
  rewrite (script_bind_Ok (tab2 dff) _ ()) by apply tab2_Ok.
  cbn [fst snd]. by rewrite tab3_Ok.
Qed.

(** When the KPI block raises, the run ends there. *)
Lemma page_body_abort d bases_sel vars_sel :
  df_filt d bases_sel vars_sel ≠ [] →
  (∀ u, (kpis (assign_Rango (df_filt d bases_sel vars_sel))).2 ≠ Ok u) →
  (page_body d bases_sel vars_sel).1
    = (kpis (assign_Rango (df_filt d bases_sel vars_sel))).1.
Proof.
  intros Hne Hk. unfold page_body.
  set (dff := assign_Rango (df_filt d bases_sel vars_sel)) in *.
  destruct (df_filt d bases_sel vars_sel) eqn:E; [done|].
  cbn [empty].
  rewrite (script_bind_Ok (mret ()) _ ()) by done. cbn [fst app].
  by apply script_bind_not_Ok.
Qed.

Lemma tab1_one (b : K) d :
  df_base d b ≠ [] →
  tab1 [b] d =
    ([(tab 1, subheader "Límites LIC y LSC por Variable para una base específica");
      (tab 1, write ("Base seleccionada: **" +:+ key_str b +:+ "**"));
      (tab 1, plotly_chart (fig_bar_limits (melt (df_base d b)) b))],
     Ok ()).
Proof. intros Hne. unfold tab1. by destruct (df_base d b). Qed.

Lemma tab1_one_empty (b : K) d :
  df_base d b = [] →
  tab1 [b] d =
    ([(tab 1, subheader "Límites LIC y LSC por Variable para una base específica");
      (tab 1, write ("Base seleccionada: **" +:+ key_str b +:+ "**"));
      (tab 1, warning "No hay datos para esta base con las variables seleccionadas.")],
     Ok ()).
Proof. intros E. unfold tab1. by rewrite E. Qed.

Lemma tab1_other bases_sel d :
  length bases_sel ≠ 1%nat →
  tab1 bases_sel d =
    ([(tab 1, subheader "Límites LIC y LSC por Variable para una base específica");
      (tab 1, info "Para ver esta gráfica, selecciona **exactamente una** Base/FVT en la barra lateral.")],
     Ok ()).
Proof. intros Hl. by destruct bases_sel as [|b [|b' l]]. Qed.

(** Outside tab 1 nothing is written into tab 1. *)
Lemma in_tab1 d (w : widget L K N) (t1 : list (container * widget L K N)) :
  (tab 1, w) ∈ (kpis d).1 ++ (page, markdown "---") ::
                 t1 ++ (tab2 d).1 ++ (tab3 d).1
  ↔ (tab 1, w) ∈ t1.
Proof.
  rewrite elem_of_app, elem_of_cons, !elem_of_app.
  pose proof (kpis_not_tab1 d w) as Hk.
  assert ((tab 1, w) ∉ (tab2 d).1) as H2.
  { cbn. rewrite ?elem_of_cons, ?elem_of_nil.
    intros H0; repeat (destruct H0 as [H0|H0]; [discriminate|]); done. }
  assert ((tab 1, w) ∉ (tab3 d).1) as H3.
  { cbn. rewrite ?elem_of_cons, ?elem_of_nil.
    intros H0; repeat (destruct H0 as [H0|H0]; [discriminate|]); done. }
  split; [|tauto].
  intros [H0|[H0|[H0|[H0|H0]]]]; done || discriminate.
Qed.
End trace.

(** * The four KPI rows *)

Section kpi_rows.
Context {L K N : Type} `{!EqDecision L, !KeyDtype K, !NumDtype N, !NumLaws N}.
Implicit Types (d : DataFrame L K N).

(** On a frame with distinct labels whose LIC and LSC columns each hold a
    value that is not NaN, the four KPI rows exist, each the first extreme
    of its column. *)
Lemma kpi_rows d :
  NoDup d.*1 →
  Exists (λ ir, isnan (col_lic ir.2) = false) d →
  Exists (λ ir, isnan (col_lsc ir.2) = false) d →
  ∃ i1 r1 i2 r2 i3 r3 i4 r4,
    (lic_max_row d = Ok (inl r1) ∧ first_max col_lic d i1 r1) ∧
    (lic_min_row d = Ok (inl r2) ∧ first_min col_lic d i2 r2) ∧
    (lsc_max_row d = Ok (inl r3) ∧ first_max col_lsc d i3 r3) ∧
    (lsc_min_row d = Ok (inl r4) ∧ first_min col_lsc d i4 r4).
Proof.
  intros Hnd Hlic Hlsc.
  destruct (idxmax_first col_lic d Hlic) as (i1 & r1 & E1 & F1).
  destruct (idxmin_first col_lic d Hlic) as (i2 & r2 & E2 & F2).
  destruct (idxmax_first col_lsc d Hlsc) as (i3 & r3 & E3 & F3).
  destruct (idxmin_first col_lsc d Hlsc) as (i4 & r4 & E4 & F4).
  exists i1, r1, i2, r2, i3, r3, i4, r4.
  unfold lic_max_row, lic_min_row, lsc_max_row, lsc_min_row.
  rewrite E1, E2, E3, E4. cbn.
  repeat split; try done.
  - destruct F1 as (d1 & d2 & ? & _). by eapply loc_unique.
  - destruct F2 as (d1 & d2 & ? & _). by eapply loc_unique.
  - destruct F3 as (d1 & d2 & ? & _). by eapply loc_unique.
  - destruct F4 as (d1 & d2 & ? & _). by eapply loc_unique.
Qed.
End kpi_rows.

(** * The laws hold of string keys and of float64 *)

Section key_laws.
Implicit Types (a b : key) (l : list key).

Lemma key_order_refl a : key_order a a.
Proof. destruct a; cbn; [reflexivity|done]. Qed.

Lemma key_order_trans a b k : key_order a b → key_order b k → key_order a k.
Proof. destruct a, b, k; cbn; try done. intros ??. by etrans. Qed.

Lemma key_order_antisym a b : key_order a b → key_order b a → a = b.
Proof.
  destruct a, b; cbn; try done. intros ??. f_equal.
  by apply (anti_symm String.le).
Qed.

Lemma key_order_total a b : key_order a b ∨ key_order b a.
Proof. destruct a, b; cbn; auto. apply (total String.le). Qed.

Lemma key_laws : KeyLaws key.
Proof.
  assert (PartialOrder key_order) as Hpo.
  { split; [split|].
    - intros a. apply key_order_refl.
    - intros a b k. apply key_order_trans.
    - intros a b. apply key_order_antisym. }
  assert (Total key_order) as Htot by (intros a b; apply key_order_total).
  split; [exact Hpo|exact Htot|..].
  - intros l l'. cbn. unfold key_sorted.
    destruct (_ && _); [done|]. intros [= <-]. apply merge_sort_Permutation.
  - intros l l'. cbn. unfold key_sorted.
    destruct (_ && _); [done|]. intros [= <-] _.
    apply StronglySorted_merge_sort; apply _.
Qed.
End key_laws.

#[export] Existing Instance key_laws.

Section float_laws.
Implicit Types (a b : spec_float) (x y z : float).

Lemma SFleb_refl a : sf_nan a = false → SFleb a a = true.
Proof.
  unfold SFleb, SFcompare. destruct a as [s|s| |s m e]; try done.
  - by destruct s.
  - intros _. change (PosDef.Pos.compare_cont Eq m m) with (m ?= m)%positive.
    rewrite Z.compare_refl, Pos.compare_refl. by destruct s.
Qed.

Lemma SFleb_trans a b (k : spec_float) :
  SFleb a b = true → SFleb b k = true → SFleb a k = true.
Proof.
  unfold SFleb, SFcompare.
  destruct a as [sa|sa| |sa ma ea], b as [sb|sb| |sb mb eb],
    k as [sc|sc| |sc mc ec];
    try destruct sa; try destruct sb; try destruct sc; cbn; try done;
    repeat match goal with
    | |- context [PosDef.Pos.compare_cont Eq ?p ?q] =>
        change (PosDef.Pos.compare_cont Eq p q) with (p ?= q)%positive
    end; intros H1 H2; sf_cases.
Qed.

Lemma SFleb_total a b :
  sf_nan a = false → sf_nan b = false → SFleb a b = true ∨ SFleb b a = true.
Proof.
  unfold SFleb, SFcompare.
  destruct a as [sa|sa| |sa ma ea], b as [sb|sb| |sb mb eb];
    try destruct sa; try destruct sb; cbn; try done; intros _ _; auto;
    repeat match goal with
    | |- context [PosDef.Pos.compare_cont Eq ?p ?q] =>
        change (PosDef.Pos.compare_cont Eq p q) with (p ?= q)%positive
    end; sf_cases; auto.
Qed.

Lemma is_nan_spec x : is_nan x = sf_nan (Prim2SF x).
Proof.
  unfold is_nan. rewrite FloatAxioms.eqb_spec. unfold SFeqb.
  destruct (Prim2SF x) as [s|s| |s m e] eqn:E; cbn in *; try done.
  - by destruct s.
  - change (PosDef.Pos.compare_cont Eq m m) with (m ?= m)%positive.
    rewrite Z.compare_refl, Pos.compare_refl. by destruct s.
Qed.

Lemma float64_laws : NumLaws float.
Proof.
  split; cbn.
  - intros x Hx. rewrite leb_spec. apply SFleb_refl. by rewrite <- is_nan_spec.
  - intros x y z. rewrite !leb_spec. apply SFleb_trans.
  - intros x y Hx Hy. rewrite !leb_spec.
    apply SFleb_total; by rewrite <- is_nan_spec.
  - intros x. by destruct (is_nan x) eqn:E.
  - intros x. by destruct (is_nan x) eqn:E.
  - by intros x ->.
  - by intros x ->.
  - reflexivity.
Qed.
End float_laws.

#[export] Existing Instance float64_laws.

(** * Bounds and failures of the KPI lookups *)

Section bounds.
Context {L K N : Type} `{!EqDecision L, !KeyDtype K, !NumDtype N, !NumLaws N}.
Implicit Types (d : DataFrame L K N) (col : row K N → N).

(** In a column without NaN the first maximum is above every row. *)
Lemma first_max_bound col d i r :
  Forall (λ ir, isnan (col ir.2) = false) d → first_max col d i r →
  Forall (λ ir, num_leb (col ir.2) (col r) = true) d.
Proof.
  intros Hd (l1 & l2 & -> & H1 & H2).
  apply Forall_app in Hd as [Hd1 Hd2].
  apply Forall_cons in Hd2 as [Hr Hd2]. cbn in Hr.
  rewrite (fill_neg_inf_id _ Hr) in H1, H2.
  apply Forall_app. split; [|constructor].
  - rewrite Forall_forall in *. intros x Hx.
    specialize (H1 x Hx). specialize (Hd1 x Hx). cbn in H1.
    rewrite (fill_neg_inf_id _ Hd1) in H1.
    destruct (num_leb_total (col x.2) (col r) Hd1 Hr); [done|congruence].
  - cbn. by apply num_leb_refl.
  - rewrite Forall_forall in *. intros x Hx.
    specialize (H2 x Hx). specialize (Hd2 x Hx). cbn in H2.
    by rewrite (fill_neg_inf_id _ Hd2) in H2.
Qed.

(** In a column without NaN the first minimum is below every row. *)
Lemma first_min_bound col d i r :
  Forall (λ ir, isnan (col ir.2) = false) d → first_min col d i r →
  Forall (λ ir, num_leb (col r) (col ir.2) = true) d.
Proof.
  intros Hd (l1 & l2 & -> & H1 & H2).
  apply Forall_app in Hd as [Hd1 Hd2].
  apply Forall_cons in Hd2 as [Hr Hd2]. cbn in Hr.
  rewrite (fill_pos_inf_id _ Hr) in H1, H2.
  apply Forall_app. split; [|constructor].
  - rewrite Forall_forall in *. intros x Hx.
    specialize (H1 x Hx). specialize (Hd1 x Hx). cbn in H1.
    rewrite (fill_pos_inf_id _ Hd1) in H1.
    destruct (num_leb_total (col x.2) (col r) Hd1 Hr); [congruence|done].
  - cbn. by apply num_leb_refl.
  - rewrite Forall_forall in *. intros x Hx.
    specialize (H2 x Hx). specialize (Hd2 x Hx). cbn in H2.
    by rewrite (fill_pos_inf_id _ Hd2) in H2.
Qed.

(** One lookup of lines 92-97 on a column that holds a value. *)
Lemma max_row col d :
  NoDup d.*1 → Exists (λ ir, isnan (col ir.2) = false) d →
  ∃ r, result_bind (loc d) (idxmax (series col d)) = Ok (inl r).
Proof.
  intros Hnd Hex.
  destruct (idxmax_first col d Hex) as (i & r & E & (d1 & d2 & Hd & _)).
  exists r. rewrite E. cbn. by eapply loc_unique.
Qed.

Lemma min_row col d :
  NoDup d.*1 → Exists (λ ir, isnan (col ir.2) = false) d →
  ∃ r, result_bind (loc d) (idxmin (series col d)) = Ok (inl r).
Proof.
  intros Hnd Hex.
  destruct (idxmin_first col d Hex) as (i & r & E & (d1 & d2 & Hd & _)).
  exists r. rewrite E. cbn. by eapply loc_unique.
Qed.

Lemma all_nan col d :
  ¬ Exists (λ ir, isnan (col ir.2) = false) d →
  Forall (λ ir, isnan (col ir.2) = true) d.
Proof.
  intros Hex. apply Forall_forall. intros ir Hir.
  destruct (isnan (col ir.2)) eqn:E; [done|].
  destruct Hex. apply Exists_exists. by exists ir.
Qed.
(** When a limit column holds NaN only, the KPI block raises before it
    writes a metric. *)
Lemma kpis_all_nan d :
  NoDup d.*1 →
  Forall (λ ir, isnan (col_lic ir.2) = true) d ∨
  Forall (λ ir, isnan (col_lsc ir.2) = true) d →
  kpis d = ([], Raise ValueError).
Proof.
  intros Hnd Hnan.
  destruct (decide (Exists (λ ir, isnan (col_lic ir.2) = false) d))
    as [Elic|Nlic].
  - destruct Hnan as [Hlic|Hlsc].
    + exfalso. apply Exists_exists in Elic as (ir & Hir & E).
      rewrite Forall_forall in Hlic. specialize (Hlic ir Hir). congruence.
    + destruct (max_row col_lic d Hnd Elic) as [r1 E1].
      destruct (min_row col_lic d Hnd Elic) as [r2 E2].
      unfold kpis, lic_max_row, lic_min_row, lsc_max_row.
      rewrite E1, E2, (idxmax_all_nan col_lsc d Hlsc). done.
  - apply all_nan in Nlic. unfold kpis, lic_max_row.
    rewrite (idxmax_all_nan col_lic d Nlic). done.
Qed.
End bounds.

(** * The properties of the specification *)

(** C1. The filter step returns exactly the rows whose Base is among the
    selected bases and whose Variable is among the selected variables: a
    row is in the output if and only if it is in the input and passes both
    tests; the output is the input with the other rows removed, each kept
    row once and in place, so distinct labels stay distinct; and a selected
    value that is not among the distinct values of the table's column
    changes nothing. *)
Theorem filter_exact {L K N : Type} `{!EqDecision L, !KeyDtype K}
    (d : DataFrame L K N) (bases_sel vars_sel : list K) :
  (∀ ir, ir ∈ df_filt d bases_sel vars_sel ↔
         ir ∈ d ∧ col_base ir.2 ∈ bases_sel ∧ col_var ir.2 ∈ vars_sel) ∧
  df_filt d bases_sel vars_sel
    = filter (λ ir, col_base ir.2 ∈ bases_sel ∧ col_var ir.2 ∈ vars_sel) d ∧
  (NoDup d.*1 → NoDup (df_filt d bases_sel vars_sel).*1) ∧
  (∀ b, b ∉ unique (column col_base d) →
        df_filt d (b :: bases_sel) vars_sel = df_filt d bases_sel vars_sel) ∧
  (∀ v, v ∉ unique (column col_var d) →
        df_filt d bases_sel (v :: vars_sel) = df_filt d bases_sel vars_sel).
Proof.
  split; [|split; [|split; [|split]]].
  - intros ir. rewrite df_filt_filter, list_elem_of_filter. tauto.
  - apply df_filt_filter.
  - apply df_filt_labels.
  - intros b Hb. rewrite !df_filt_filter. rewrite elem_of_unique in Hb.
    apply filter_iff_on. intros ir Hir. rewrite elem_of_cons.
    assert (col_base ir.2 ≠ b); [|tauto].
    intros <-. apply Hb. unfold column. by apply list_elem_of_fmap_2' with ir.
  - intros v Hv. rewrite !df_filt_filter. rewrite elem_of_unique in Hv.
    apply filter_iff_on. intros ir Hir. rewrite elem_of_cons.
    assert (col_var ir.2 ≠ v); [|tauto].
    intros <-. apply Hv. unfold column. by apply list_elem_of_fmap_2' with ir.
Qed.

(** The derived cells are computed in the dtype of the limits, so they are
    not the exact difference and midpoint: with LIC 0.1 and LSC 0.3 in
    float64 the cell [Centro] is not the midpoint of the two limits, and
    with LIC 2^-70 and LSC 1 the cell [Rango] is 1, not their difference.
    Where a limit is missing the cell [Rango] is NaN, which [==] does not
    hold equal to the difference either. *)
Lemma derived_cells_rounded :
  (∃ r1 r2 lic1 lsc1 centro1 lic2 lsc2 rango2,
     df ejemplo_decimales = [(0%nat, r1); (1%nat, r2)] ∧
     exact (col_lic r1) = Some lic1 ∧ exact (col_lsc r1) = Some lsc1 ∧
     Centro r1 ≫= exact = Some centro1 ∧
     Qeq_bool centro1 ((lsc1 + lic1) / 2) = false ∧
     exact (col_lic r2) = Some lic2 ∧ exact (col_lsc r2) = Some lsc2 ∧
     Rango r2 ≫= exact = Some rango2 ∧
     Qeq_bool rango2 (lsc2 - lic2) = false) ∧
  (∃ r rango,
     df_filt (df ejemplo_sin_limite) [KStr "A"] [KStr "X"] = [(0%nat, r)] ∧
     Rango r = Some rango ∧
     PrimFloat.eqb rango (col_lsc r - col_lic r) = false).
Proof.
  split.
  - do 8 eexists.
    split; [vm_compute; reflexivity|].
    split; [vm_compute; reflexivity|]. split; [vm_compute; reflexivity|].
    split; [vm_compute; reflexivity|]. split; [vm_compute; reflexivity|].
    split; [vm_compute; reflexivity|]. split; [vm_compute; reflexivity|].
    split; [vm_compute; reflexivity|]. vm_compute; reflexivity.
  - do 2 eexists.
    split; [vm_compute; reflexivity|]. split; [vm_compute; reflexivity|].
    vm_compute; reflexivity.
Qed.

(** C2, as the code has it. In the full frame and in every filtered view
    (the frame of lines 74-77 and the frame after line 89 reassigns
    [Rango]) each row holds, as Rango, the difference of its own LSC and
    LIC, and as Centro, half the sum of its own LSC and LIC, both as the
    dtype of the limits computes them. *)
Theorem derived_columns_dtype
    {L K N : Type} `{!EqDecision L, !KeyDtype K, !NumDtype N}
    (read_csv : DataFrame L K N) (bases_sel vars_sel : list K) :
  Forall (λ ir, rango_ok ir ∧ centro_ok ir) (df read_csv) ∧
  Forall (λ ir, rango_ok ir ∧ centro_ok ir)
    (df_filt (df read_csv) bases_sel vars_sel) ∧
  Forall (λ ir, rango_ok ir ∧ centro_ok ir)
    (assign_Rango (df_filt (df read_csv) bases_sel vars_sel)).
Proof.
  assert (Forall (λ ir : L * row K N, rango_ok ir ∧ centro_ok ir)
            (df read_csv)) as Hdf by apply derive_ok.
  assert (Forall (λ ir : L * row K N, rango_ok ir ∧ centro_ok ir)
            (df_filt (df read_csv) bases_sel vars_sel)) as Hf
    by by apply Forall_df_filt.
  repeat split; [done..|].
  apply Forall_and in Hf as [Hr Hc]. apply Forall_and. split.
  - apply assign_Rango_ok.
  - by apply assign_Rango_keeps_Centro.
Qed.

(** C3. When no row passes the filter, the run writes the "no data" notice
    and stops there: the notice is the whole trace, and no KPI, chart, mean
    or pivot is computed. *)
Theorem empty_selection_stops
    {L K N : Type} `{!EqDecision L, !KeyDtype K, !NumDtype N}
    (read_csv : DataFrame L K N) (bases_sel vars_sel : list K) :
  df_filt (df read_csv) bases_sel vars_sel = [] →
  dashboard read_csv bases_sel vars_sel =
    ([(page, warning "No hay datos para esta combinación de filtros. Ajusta la Base o Variable.")],
     Stop).
Proof. apply page_body_stop. Qed.

Lemma empty_selection_stops_witness :
  df_filt (df ejemplo_medias) [] [KStr "X"] = [] ∧
  dashboard ejemplo_medias [] [KStr "X"] =
    ([(page, warning "No hay datos para esta combinación de filtros. Ajusta la Base o Variable.")],
     Stop).
Proof.
  split; [reflexivity|].
  apply (empty_selection_stops ejemplo_medias [] [KStr "X"]).
  reflexivity.
Defined.

(** A Variable that is missing has no record in the grouped frame, and the
    means are float64 means: the one row of [ejemplo_sin_variable] passes
    the filter and the grouped frame is empty; the three LIC cells of
    [ejemplo_tercios] are the same number, which is their arithmetic mean,
    and the mean reported is another one. *)
Lemma means_skip_missing_and_round :
  column col_var
    (assign_Rango (df_filt (df ejemplo_sin_variable) [KStr "A"] [KNaN]))
    = [KNaN] ∧
  df_vars (assign_Rango (df_filt (df ejemplo_sin_variable) [KStr "A"] [KNaN]))
    = [] ∧
  ∃ lic mean_lsc mean_lic,
    column col_lic
      (assign_Rango (df_filt (df ejemplo_tercios)
         [KStr "A"; KStr "B"; KStr "C"] [KStr "X"]))
      = [lic; lic; lic] ∧
    df_vars
      (assign_Rango (df_filt (df ejemplo_tercios)
         [KStr "A"; KStr "B"; KStr "C"] [KStr "X"]))
      = [(KStr "X", mean_lsc, mean_lic)] ∧
    PrimFloat.eqb mean_lic lic = false.
Proof.
  split; [vm_compute; reflexivity|]. split; [vm_compute; reflexivity|].
  do 3 eexists.
  split; [vm_compute; reflexivity|]. split; [vm_compute; reflexivity|].
  vm_compute; reflexivity.
Qed.

(** C4, as the code has it. PerVariableMeans has one record per distinct
    Variable of the filtered table that is not missing, in ascending order
    of Variable; the record of a Variable holds the mean of LSC and the
    mean of LIC, as the dtype of the limits computes a group mean, over all
    the rows of that Variable, whatever their Base. On the rows
    (A, X, 10, 20) and (B, X, 14, 22) the group X reports mean LIC 12 and
    mean LSC 21. *)
Theorem per_variable_means
    {L K N : Type} `{!EqDecision L, !KeyDtype K, !NumDtype N, !KeyLaws K}
    (d : DataFrame L K N) (bases_sel vars_sel : list K) :
  let dff := assign_Rango (df_filt d bases_sel vars_sel) in
  let keys := (λ t, t.1.1) <$> df_vars dff in
  (StronglySorted key_le keys ∧ NoDup keys ∧
   ∀ v, v ∈ keys ↔ v ∈ column col_var dff ∧ isna v = false) ∧
  (∀ t, t ∈ df_vars dff →
     let g := filter (λ ir, col_var ir.2 = t.1.1) dff in
     g ≠ [] ∧
     t.1.2 = num_mean (column col_lsc g) ∧
     t.2 = num_mean (column col_lic g)) ∧
  df_vars (assign_Rango (df_filt (df ejemplo_medias)
             [KStr "A"; KStr "B"] [KStr "X"]))
    = [(KStr "X", 21%float, 12%float)].
Proof.
  intros dff keys. split; [|split].
  - subst keys. rewrite df_vars_keys.
    split; [apply sorted_group_keys|]. split; [apply NoDup_group_keys|].
    intros v. apply elem_of_group_keys.
  - intros t Ht. rewrite df_vars_groupby in Ht.
    apply list_elem_of_fmap in Ht as (v & -> & Hv). cbn.
    split; [|done].
    apply elem_of_group_keys in Hv as [Hv _].
    unfold column in Hv. apply list_elem_of_fmap in Hv as (ir & -> & Hir).
    intros E.
    assert (ir ∈ filter (λ x, col_var x.2 = col_var ir.2) dff) as Hin
      by (by apply list_elem_of_filter).
    rewrite E in Hin. by apply not_elem_of_nil in Hin.
  - vm_compute. reflexivity.
Qed.

Lemma per_variable_means_witness :
  KeyLaws key ∧
  StronglySorted key_order
    ((λ t, t.1.1) <$>
       df_vars (assign_Rango (df_filt (df ejemplo_medias)
                  [KStr "A"; KStr "B"] [KStr "X"]))) ∧
  df_vars (assign_Rango (df_filt (df ejemplo_medias)
             [KStr "A"; KStr "B"] [KStr "X"]))
    = [(KStr "X", 21%float, 12%float)].
Proof.
  split; [exact key_laws|].
  pose proof (per_variable_means (df ejemplo_medias)
                [KStr "A"; KStr "B"] [KStr "X"]) as [[Hs _] [_ He]].
  split; [exact Hs|exact He].
Defined.

(** A filtered table that is not empty may have no extreme to report: the
    one row of [ejemplo_sin_limite] passes the filter, its LIC is NaN, and
    the first lookup of line 92 raises; no metric is written and the run
    ends there. *)
Lemma no_extreme_of_missing_limits :
  empty (assign_Rango (df_filt (df ejemplo_sin_limite)
           [KStr "A"] [KStr "X"])) = false ∧
  lic_max_row (assign_Rango (df_filt (df ejemplo_sin_limite)
                 [KStr "A"] [KStr "X"])) = Raise ValueError ∧
  dashboard ejemplo_sin_limite [KStr "A"] [KStr "X"]
    = ([], Raise ValueError).
Proof. repeat split; vm_compute; reflexivity. Qed.

(** C5, as the code has it. On a filtered table whose index labels are
    distinct and whose LIC and LSC columns each hold a value that is not
    NaN, each of the four lookups returns a row of the table: for the
    maxima a row that every earlier row is strictly below and no later row
    exceeds, NaN counted as -inf; for the minima the mirror image, NaN
    counted as +inf; so among equal extremes the first row in iteration
    order wins. The metric shows that row's value with its Base and
    Variable. When the LIC column or the LSC column holds NaN only, a
    lookup raises [ValueError] and no metric is written. With the maximum
    LIC 10 held by (A, X) and then by (B, Y), the max-LIC row is (A, X). *)
Theorem extremes_first_occurrence
    {L K N : Type} `{!EqDecision L, !KeyDtype K, !NumDtype N, !NumLaws N}
    (read_csv : DataFrame L K N) (bases_sel vars_sel : list K) :
  NoDup read_csv.*1 →
  let dff := assign_Rango (df_filt (df read_csv) bases_sel vars_sel) in
  (Exists (λ ir, isnan (col_lic ir.2) = false) dff →
   Exists (λ ir, isnan (col_lsc ir.2) = false) dff →
   ∃ i1 r1 i2 r2 i3 r3 i4 r4,
     (lic_max_row dff = Ok (inl r1) ∧ first_max col_lic dff i1 r1) ∧
     (lic_min_row dff = Ok (inl r2) ∧ first_min col_lic dff i2 r2) ∧
     (lsc_max_row dff = Ok (inl r3) ∧ first_max col_lsc dff i3 r3) ∧
     (lsc_min_row dff = Ok (inl r4) ∧ first_min col_lsc dff i4 r4) ∧
     kpis dff =
       ([(c 1, metric "LIC máximo" (col_lic r1) (delta r1));
         (c 2, metric "LIC mínimo" (col_lic r2) (delta r2));
         (c 3, metric "LSC máximo" (col_lsc r3) (delta r3));
         (c 4, metric "LSC mínimo" (col_lsc r4) (delta r4))], Ok ())) ∧
  (Forall (λ ir, isnan (col_lic ir.2) = true) dff ∨
   Forall (λ ir, isnan (col_lsc ir.2) = true) dff →
   kpis dff = ([], Raise ValueError)) ∧
  lic_max_row (assign_Rango (df_filt (df ejemplo_empate)
                 [KStr "A"; KStr "B"] [KStr "X"; KStr "Y"]))
    = Ok (inl (Row (KStr "A") (KStr "X") 10%float 20%float
                 (Some 10%float) (Some 15%float) [])).
Proof.
  intros Hnd dff.
  pose proof (filtered_labels read_csv bases_sel vars_sel Hnd) as Hl.
  fold dff in Hl.
  split; [|split; [by apply kpis_all_nan|vm_compute; reflexivity]].
  intros Hlic Hlsc.
  destruct (kpi_rows dff Hl Hlic Hlsc)
    as (i1 & r1 & i2 & r2 & i3 & r3 & i4 & r4
        & [E1 F1] & [E2 F2] & [E3 F3] & [E4 F4]).
  exists i1, r1, i2, r2, i3, r3, i4, r4.
  repeat (split; [done|]). by apply kpis_trace.
Qed.

Lemma extremes_first_occurrence_witness :
  NumLaws float ∧
  NoDup ejemplo_empate.*1 ∧
  ∃ r1 r2 r3 r4,
    kpis (assign_Rango (df_filt (df ejemplo_empate)
            [KStr "A"; KStr "B"] [KStr "X"; KStr "Y"])) =
      ([(c 1, metric "LIC máximo" (col_lic r1) (delta r1));
        (c 2, metric "LIC mínimo" (col_lic r2) (delta r2));
        (c 3, metric "LSC máximo" (col_lsc r3) (delta r3));
        (c 4, metric "LSC mínimo" (col_lsc r4) (delta r4))], Ok ()).
Proof.
  split; [exact float64_laws|].
  assert (NoDup ejemplo_empate.*1) as Hnd
    by (apply (bool_decide_unpack _); vm_compute; exact I).
  split; [exact Hnd|].
  destruct (proj1 (extremes_first_occurrence ejemplo_empate
                     [KStr "A"; KStr "B"] [KStr "X"; KStr "Y"] Hnd))
    as (i1 & r1 & i2 & r2 & i3 & r3 & i4 & r4 & _ & _ & _ & _ & Hk).
  - apply Exists_cons_hd. reflexivity.
  - apply Exists_cons_hd. reflexivity.
  - by exists r1, r2, r3, r4.
Defined.

(** A Base of the filtered table may have no row in the matrix: both rows
    of [ejemplo_hueco] pass the filter, the only row of Base A has no LIC,
    so the mean of its group is NaN and the group is dropped; the matrix
    has the one row B. *)
Lemma heatmap_drops_base :
  column col_base
    (assign_Rango (df_filt (df ejemplo_hueco)
       [KStr "A"; KStr "B"] [KStr "X"]))
    = [KStr "A"; KStr "B"] ∧
  df_heat (assign_Rango (df_filt (df ejemplo_hueco)
             [KStr "A"; KStr "B"] [KStr "X"]))
    = Pivot [KStr "B"] [KStr "X"] [[1%float]].
Proof. split; vm_compute; reflexivity. Qed.

(** C6, as the code has it. The heatmap matrix of a filtered table has one
    row per Base and one column per Variable of the groups it keeps, both
    in ascending order: a (Base, Variable) group is kept when neither key
    is missing and the mean of its Rango is not NaN. When every row of the
    table is in such a group, the rows are the distinct Bases and the
    columns the distinct Variables of the table. The cell under a Base and
    a Variable is the mean of LSC - LIC over the rows with that Base and
    Variable, as the dtype computes it, and a cell without such rows, or
    whose mean is NaN, is NaN, not zero. *)
Theorem heatmap_matrix
    {L K N : Type}
    `{!EqDecision L, !KeyDtype K, !NumDtype N, !KeyLaws K, !NumLaws N}
    (d : DataFrame L K N) (bases_sel vars_sel : list K) :
  let dff := assign_Rango (df_filt d bases_sel vars_sel) in
  let p := df_heat dff in
  (StronglySorted key_le (pivot_index p) ∧ NoDup (pivot_index p) ∧
   ∀ b, b ∈ pivot_index p ↔ ∃ ir, ir ∈ dff ∧ col_base ir.2 = b ∧ kept dff ir) ∧
  (StronglySorted key_le (pivot_columns p) ∧ NoDup (pivot_columns p) ∧
   ∀ v, v ∈ pivot_columns p ↔ ∃ ir, ir ∈ dff ∧ col_var ir.2 = v ∧ kept dff ir) ∧
  (Forall (kept dff) dff →
   (∀ b, b ∈ pivot_index p ↔ b ∈ column col_base dff) ∧
   (∀ v, v ∈ pivot_columns p ↔ v ∈ column col_var dff)) ∧
  (length (pivot_values p) = length (pivot_index p) ∧
   Forall (λ cells, length cells = length (pivot_columns p))
     (pivot_values p)) ∧
  (∀ i j b v,
     pivot_index p !! i = Some b → pivot_columns p !! j = Some v →
     let g := filter (λ ir, col_base ir.2 = b ∧ col_var ir.2 = v) dff in
     let m := num_mean ((λ ir, num_sub (col_lsc ir.2) (col_lic ir.2)) <$> g) in
     pivot_cell p i j
       = Some (if decide (g = [] ∨ isnan m = true) then num_nan else m)) ∧
  isnan (num_nan (N := N)) = true.
Proof.
  intros dff p. subst p. unfold df_heat.
  split; [|split; [|split; [|split; [|split]]]].
  - split; [apply StronglySorted_merge_sort; apply _|]. split.
    + unfold pivot_table. cbn. rewrite merge_sort_Permutation.
      apply NoDup_unique.
    + apply elem_of_pivot_index.
  - split; [apply StronglySorted_merge_sort; apply _|]. split.
    + unfold pivot_table. cbn. rewrite merge_sort_Permutation.
      apply NoDup_unique.
    + apply elem_of_pivot_columns.
  - intros Hall. rewrite Forall_forall in Hall. split.
    + intros b. rewrite elem_of_pivot_index. unfold column.
      rewrite list_elem_of_fmap. split.
      * intros (ir & Hir & <- & _). by exists ir.
      * intros (ir & -> & Hir). exists ir. repeat split; auto.
        all: by apply Hall.
    + intros v. rewrite elem_of_pivot_columns. unfold column.
      rewrite list_elem_of_fmap. split.
      * intros (ir & Hir & <- & _). by exists ir.
      * intros (ir & -> & Hir). exists ir. repeat split; auto.
        all: by apply Hall.
  - unfold pivot_table. cbn. rewrite length_fmap. split; [done|].
    rewrite Forall_fmap. apply Forall_true. intros b. cbn.
    by rewrite length_fmap.
  - intros i j b v Hi Hj.
    set (g := filter (λ ir, col_base ir.2 = b ∧ col_var ir.2 = v) dff).
    set (m := num_mean ((λ ir, num_sub (col_lsc ir.2) (col_lic ir.2)) <$> g)).
    rewrite (pivot_cell_lookup dff i j b v Hi Hj). f_equal.
    rewrite kept_group.
    assert (cell_mean dff b v = m) as ->
      by (apply cell_mean_ok, assign_Rango_ok).
    fold g.
    apply list_elem_of_lookup_2, elem_of_pivot_index in Hi
      as (ir & _ & <- & Hb & _ & _).
    apply list_elem_of_lookup_2, elem_of_pivot_columns in Hj
      as (ir' & _ & <- & _ & Hv & _).
    destruct (isnan m) eqn:Em; repeat case_decide; try done; try tauto.
    all: exfalso; intuition congruence.
  - apply num_nan_isnan.
Qed.

Lemma heatmap_matrix_witness :
  KeyLaws key ∧ NumLaws float ∧
  StronglySorted key_order
    (pivot_index
       (df_heat (assign_Rango (df_filt (df ejemplo_medias)
                   [KStr "A"; KStr "B"] [KStr "X"])))) ∧
  df_heat (assign_Rango (df_filt (df ejemplo_medias)
             [KStr "A"; KStr "B"] [KStr "X"]))
    = Pivot [KStr "A"; KStr "B"] [KStr "X"] [[10%float]; [8%float]].
Proof.
  split; [exact key_laws|]. split; [exact float64_laws|].
  split; [|vm_compute; reflexivity].
  exact (proj1 (proj1 (heatmap_matrix (df ejemplo_medias)
                         [KStr "A"; KStr "B"] [KStr "X"]))).
Defined.




(** C8. The derivation is idempotent: deriving a derived frame changes
    nothing; deriving again after the filter, or reassigning [Rango] as
    line 89 does, changes nothing either, so a row of the filtered frame is,
    label and cells, a row of the full frame. *)
Theorem derivation_idempotent
    {L K N : Type} `{!EqDecision L, !KeyDtype K, !NumDtype N}
    (d : DataFrame L K N) (bases_sel vars_sel : list K) :
  derive (derive d) = derive d ∧
  derive (df_filt (derive d) bases_sel vars_sel)
    = df_filt (derive d) bases_sel vars_sel ∧
  assign_Rango (df_filt (derive d) bases_sel vars_sel)
    = df_filt (derive d) bases_sel vars_sel ∧
  (∀ ir, ir ∈ assign_Rango (df_filt (derive d) bases_sel vars_sel) →
         ir ∈ derive d).
Proof.
  pose proof (derive_ok d) as Hd.
  pose proof (Forall_df_filt _ _ bases_sel vars_sel Hd) as Hf.
  assert (assign_Rango (df_filt (derive d) bases_sel vars_sel)
          = df_filt (derive d) bases_sel vars_sel) as Hr.
  { apply assign_Rango_id. by apply Forall_and in Hf as [? _]. }
  split; [by apply derive_id|]. split; [by apply derive_id|].
  split; [done|].
  intros ir. rewrite Hr, df_filt_filter, list_elem_of_filter. tauto.
Qed.




(** C10. The filter keeps the rows it keeps as they are and where they are:
    its output is a subsequence of its input, so the kept rows are in the
    input's order and each one, label and every cell (Base, Variable, LIC,
    LSC, Rango, Centro, pass-through), is a row of the input; reassigning
    [Rango] on the filtered frame of a derived frame keeps this. *)
Theorem filter_order_preserving
    {L K N : Type} `{!EqDecision L, !KeyDtype K, !NumDtype N}
    (d : DataFrame L K N) (bases_sel vars_sel : list K) :
  df_filt d bases_sel vars_sel `sublist_of` d ∧
  (∀ ir, ir ∈ df_filt d bases_sel vars_sel → ir ∈ d) ∧
  assign_Rango (df_filt (derive d) bases_sel vars_sel) `sublist_of` derive d.
Proof.
  split; [apply df_filt_sublist|]. split.
  - intros ir. rewrite df_filt_filter, list_elem_of_filter. tauto.
  - rewrite assign_Rango_id; [apply df_filt_sublist|].
    apply Forall_df_filt.
    pose proof (derive_ok d) as Hd. by apply Forall_and in Hd as [? _].
Qed.

(** * Further properties of the pipeline *)

Section selection.
Context {L K N : Type} `{!EqDecision L, !KeyDtype K, !NumDtype N}.
Implicit Types (d : DataFrame L K N) (bases_sel vars_sel : list K).

Lemma df_filt_compose d bases_sel vars_sel bases_sel' vars_sel' :
  df_filt (df_filt d bases_sel vars_sel) bases_sel' vars_sel'
  = df_filt d (filter (λ b, b ∈ bases_sel') bases_sel)
              (filter (λ v, v ∈ vars_sel') vars_sel).
Proof.
  rewrite !df_filt_filter, list_filter_filter. apply list_filter_iff.
  intros ir. rewrite !list_elem_of_filter. tauto.
Qed.

Lemma df_filt_ext d bases_sel vars_sel bases_sel' vars_sel' :
  (∀ b, b ∈ bases_sel ↔ b ∈ bases_sel') →
  (∀ v, v ∈ vars_sel ↔ v ∈ vars_sel') →
  df_filt d bases_sel vars_sel = df_filt d bases_sel' vars_sel'.
Proof.
  intros Hb Hv. rewrite !df_filt_filter. apply list_filter_iff.
  intros ir. by rewrite Hb, Hv.
Qed.

(** What [sorted] returns of a column's distinct values holds the values
    of the column, each once. *)
Lemma elem_of_sorted_unique `{!KeyLaws K} (c : row K N → K) d (o : list K) x :
  py_sorted (unique (column c d)) = Ok o →
  x ∈ o ↔ ∃ ir, ir ∈ d ∧ c ir.2 = x.
Proof.
  intros Ho. rewrite (py_sorted_perm _ _ Ho), elem_of_unique.
  unfold column. rewrite list_elem_of_fmap.
  split; intros (ir & H1 & H2); exists ir; by split.
Qed.

Lemma NoDup_sorted_unique `{!KeyLaws K} (c : row K N → K) d (o : list K) :
  py_sorted (unique (column c d)) = Ok o → NoDup o.
Proof. intros Ho. rewrite (py_sorted_perm _ _ Ho). apply NoDup_unique. Qed.
End selection.

(** X1. Under the default selection, all the options of both multiselects,
    the filter keeps the whole frame: every row, in place. *)
Theorem default_selection_keeps_all
    {L K N : Type} `{!EqDecision L, !KeyDtype K, !NumDtype N, !KeyLaws K}
    (d : DataFrame L K N) (bases_sel vars_sel : list K) :
  bases_unicas d = Ok bases_sel → vars_unicas d = Ok vars_sel →
  df_filt d bases_sel vars_sel = d.
Proof.
  intros Hb Hv. rewrite df_filt_filter. apply filter_all, Forall_forall.
  intros ir Hir. split.
  - apply (elem_of_sorted_unique col_base d bases_sel _ Hb). by exists ir.
  - apply (elem_of_sorted_unique col_var d vars_sel _ Hv). by exists ir.
Qed.

Lemma default_selection_keeps_all_witness :
  KeyLaws key ∧
  bases_unicas (df ejemplo_medias) = Ok [KStr "A"; KStr "B"] ∧
  vars_unicas (df ejemplo_medias) = Ok [KStr "X"] ∧
  df_filt (df ejemplo_medias) [KStr "A"; KStr "B"] [KStr "X"]
    = df ejemplo_medias.
Proof.
  split; [exact key_laws|].
  split; [vm_compute; reflexivity|]. split; [vm_compute; reflexivity|].
  apply (default_selection_keeps_all (df ejemplo_medias)
           [KStr "A"; KStr "B"] [KStr "X"]); vm_compute; reflexivity.
Defined.

(** X2. The filter reads each selection as a set: two selections with the
    same members, in whatever order and however often repeated, keep the
    same rows. *)
Theorem selection_order_irrelevant
    {L K N : Type} `{!EqDecision L, !KeyDtype K, !NumDtype N}
    (d : DataFrame L K N) (bases_sel vars_sel bases_sel' vars_sel' : list K) :
  (∀ b, b ∈ bases_sel ↔ b ∈ bases_sel') →
  (∀ v, v ∈ vars_sel ↔ v ∈ vars_sel') →
  df_filt d bases_sel vars_sel = df_filt d bases_sel' vars_sel'.
Proof. apply df_filt_ext. Qed.

Lemma selection_order_irrelevant_witness :
  df_filt (df ejemplo_empate) [KStr "A"; KStr "B"] [KStr "X"]
  = df_filt (df ejemplo_empate) [KStr "B"; KStr "A"; KStr "B"]
      [KStr "X"; KStr "X"].
Proof.
  apply (selection_order_irrelevant (df ejemplo_empate)
    [KStr "A"; KStr "B"] [KStr "X"] [KStr "B"; KStr "A"; KStr "B"]
    [KStr "X"; KStr "X"]).
  - intros b. rewrite !elem_of_cons, elem_of_nil. tauto.
  - intros v. rewrite !elem_of_cons, elem_of_nil. tauto.
Defined.

(** X3. Filtering a filtered frame keeps the rows that pass both pairs of
    selections, which is one filter by the selections' intersections; in
    particular filtering twice by the same selections is filtering once. *)
Theorem filter_composes
    {L K N : Type} `{!EqDecision L, !KeyDtype K, !NumDtype N}
    (d : DataFrame L K N) (bases_sel vars_sel bases_sel' vars_sel' : list K) :
  df_filt (df_filt d bases_sel vars_sel) bases_sel' vars_sel'
    = df_filt d (filter (λ b, b ∈ bases_sel') bases_sel)
                (filter (λ v, v ∈ vars_sel') vars_sel) ∧
  df_filt (df_filt d bases_sel vars_sel) bases_sel' vars_sel'
    = df_filt (df_filt d bases_sel' vars_sel') bases_sel vars_sel ∧
  df_filt (df_filt d bases_sel vars_sel) bases_sel vars_sel
    = df_filt d bases_sel vars_sel.
Proof.
  split; [apply df_filt_compose|]. split.
  - rewrite !df_filt_compose. apply df_filt_ext; intros x;
      rewrite !list_elem_of_filter; tauto.
  - rewrite df_filt_compose. apply df_filt_ext; intros x;
      rewrite list_elem_of_filter; tauto.
Qed.

(** X4. Selecting more never removes a row: when every selected Base and
    Variable is still selected, the old filtered frame is a subsequence of
    the new one. *)
Theorem wider_selection_keeps_rows
    {L K N : Type} `{!EqDecision L, !KeyDtype K, !NumDtype N}
    (d : DataFrame L K N) (bases_sel vars_sel bases_sel' vars_sel' : list K) :
  bases_sel ⊆ bases_sel' → vars_sel ⊆ vars_sel' →
  df_filt d bases_sel vars_sel `sublist_of` df_filt d bases_sel' vars_sel'.
Proof.
  intros Hb Hv.
  assert (df_filt d bases_sel vars_sel
          = df_filt (df_filt d bases_sel' vars_sel') bases_sel vars_sel) as ->.
  { rewrite df_filt_compose. apply df_filt_ext; intros x;
      rewrite list_elem_of_filter; [specialize (Hb x)|specialize (Hv x)]; tauto. }
  apply df_filt_sublist.
Qed.

Lemma wider_selection_keeps_rows_witness :
  df_filt (df ejemplo_empate) [KStr "A"] [KStr "X"]
  `sublist_of`
  df_filt (df ejemplo_empate) [KStr "A"; KStr "B"] [KStr "X"; KStr "Y"].
Proof.
  apply (wider_selection_keeps_rows (df ejemplo_empate)
    [KStr "A"] [KStr "X"] [KStr "A"; KStr "B"] [KStr "X"; KStr "Y"]).
  - intros b. rewrite !elem_of_cons, elem_of_nil. tauto.
  - intros v. rewrite !elem_of_cons, elem_of_nil. tauto.
Defined.

(** X7. On a filtered table with distinct labels and no NaN among its
    limits, the four KPI values bound the table: every row's LIC lies
    between the LIC mínimo and the LIC máximo shown, and every row's LSC
    between the LSC mínimo and the LSC máximo shown. *)
Theorem kpis_bound_every_row
    {L K N : Type} `{!EqDecision L, !KeyDtype K, !NumDtype N, !NumLaws N}
    (read_csv : DataFrame L K N) (bases_sel vars_sel : list K) :
  NoDup read_csv.*1 →
  assign_Rango (df_filt (df read_csv) bases_sel vars_sel) ≠ [] →
  Forall (λ ir, isnan (col_lic ir.2) = false ∧ isnan (col_lsc ir.2) = false)
    (assign_Rango (df_filt (df read_csv) bases_sel vars_sel)) →
  ∃ lic_max lic_min lsc_max lsc_min,
    lic_max_row (assign_Rango (df_filt (df read_csv) bases_sel vars_sel))
      = Ok (inl lic_max) ∧
    lic_min_row (assign_Rango (df_filt (df read_csv) bases_sel vars_sel))
      = Ok (inl lic_min) ∧
    lsc_max_row (assign_Rango (df_filt (df read_csv) bases_sel vars_sel))
      = Ok (inl lsc_max) ∧
    lsc_min_row (assign_Rango (df_filt (df read_csv) bases_sel vars_sel))
      = Ok (inl lsc_min) ∧
    Forall (λ ir,
      (num_leb (col_lic lic_min) (col_lic ir.2) = true ∧
       num_leb (col_lic ir.2) (col_lic lic_max) = true) ∧
      (num_leb (col_lsc lsc_min) (col_lsc ir.2) = true ∧
       num_leb (col_lsc ir.2) (col_lsc lsc_max) = true))
      (assign_Rango (df_filt (df read_csv) bases_sel vars_sel)).
Proof.
  intros Hnd Hne Hnum. set (dff := assign_Rango _) in *.
  apply Forall_and in Hnum as [Hlic Hlsc].
  assert (Exists (λ ir, isnan (col_lic ir.2) = false) dff) as Elic.
  { destruct dff as [|ir l]; [done|].
    apply Forall_cons in Hlic as [? _]. by apply Exists_cons_hd. }
  assert (Exists (λ ir, isnan (col_lsc ir.2) = false) dff) as Elsc.
  { destruct dff as [|ir l]; [done|].
    apply Forall_cons in Hlsc as [? _]. by apply Exists_cons_hd. }
  destruct (kpi_rows dff (filtered_labels read_csv bases_sel vars_sel Hnd)
              Elic Elsc)
    as (i1 & r1 & i2 & r2 & i3 & r3 & i4 & r4
        & [E1 F1] & [E2 F2] & [E3 F3] & [E4 F4]).
  exists r1, r2, r3, r4. repeat (split; [done|]).
  pose proof (first_max_bound col_lic dff i1 r1 Hlic F1) as B1.
  pose proof (first_min_bound col_lic dff i2 r2 Hlic F2) as B2.
  pose proof (first_max_bound col_lsc dff i3 r3 Hlsc F3) as B3.
  pose proof (first_min_bound col_lsc dff i4 r4 Hlsc F4) as B4.
  rewrite Forall_forall in *. intros ir Hir.
  repeat split; auto.
Qed.

Lemma kpis_bound_every_row_witness :
  NumLaws float ∧
  ∃ lic_max lic_min lsc_max lsc_min,
    lic_max_row (assign_Rango (df_filt (df ejemplo_medias)
                   [KStr "A"; KStr "B"] [KStr "X"])) = Ok (inl lic_max) ∧
    lic_min_row (assign_Rango (df_filt (df ejemplo_medias)
                   [KStr "A"; KStr "B"] [KStr "X"])) = Ok (inl lic_min) ∧
    lsc_max_row (assign_Rango (df_filt (df ejemplo_medias)
                   [KStr "A"; KStr "B"] [KStr "X"])) = Ok (inl lsc_max) ∧
    lsc_min_row (assign_Rango (df_filt (df ejemplo_medias)
                   [KStr "A"; KStr "B"] [KStr "X"])) = Ok (inl lsc_min) ∧
    Forall (λ ir,
      (num_leb (col_lic lic_min) (col_lic ir.2) = true ∧
       num_leb (col_lic ir.2) (col_lic lic_max) = true) ∧
      (num_leb (col_lsc lsc_min) (col_lsc ir.2) = true ∧
       num_leb (col_lsc ir.2) (col_lsc lsc_max) = true))
      (assign_Rango (df_filt (df ejemplo_medias)
         [KStr "A"; KStr "B"] [KStr "X"])).
Proof.
  split; [exact float64_laws|].
  apply (kpis_bound_every_row ejemplo_medias [KStr "A"; KStr "B"] [KStr "X"]).
  - apply (bool_decide_unpack _). vm_compute. exact I.
  - discriminate.
  - repeat constructor.
Defined.

(** X9. On a filtered table with distinct labels the KPI block writes its
    four metrics exactly when the LIC column and the LSC column each hold
    a value that is not NaN; otherwise a lookup of lines 92-97 raises
    [ValueError] before any metric is written. An empty filtered table is
    such a case: the guard of lines 79-81 is what keeps it out of a
    run. *)
Theorem kpis_need_a_limit
    {L K N : Type} `{!EqDecision L, !KeyDtype K, !NumDtype N, !NumLaws N}
    (read_csv : DataFrame L K N) (bases_sel vars_sel : list K) :
  NoDup read_csv.*1 →
  let dff := assign_Rango (df_filt (df read_csv) bases_sel vars_sel) in
  ((kpis dff).2 = Ok () ∧ length (kpis dff).1 = 4%nat ∧
   Exists (λ ir, isnan (col_lic ir.2) = false) dff ∧
   Exists (λ ir, isnan (col_lsc ir.2) = false) dff)
  ∨
  (kpis dff = ([], Raise ValueError) ∧
   (Forall (λ ir, isnan (col_lic ir.2) = true) dff ∨
    Forall (λ ir, isnan (col_lsc ir.2) = true) dff)).
Proof.
  intros Hnd dff.
  pose proof (filtered_labels read_csv bases_sel vars_sel Hnd) as Hl.
  fold dff in Hl.
  destruct (decide (Exists (λ ir, isnan (col_lic ir.2) = false) dff))
    as [Elic|Nlic].
  - destruct (decide (Exists (λ ir, isnan (col_lsc ir.2) = false) dff))
      as [Elsc|Nlsc].
    + left.
      destruct (kpi_rows dff Hl Elic Elsc)
        as (i1 & r1 & i2 & r2 & i3 & r3 & i4 & r4
            & [E1 _] & [E2 _] & [E3 _] & [E4 _]).
      by rewrite (kpis_trace dff r1 r2 r3 r4 E1 E2 E3 E4).
    + right. apply all_nan in Nlsc. split; [|by right].
      apply kpis_all_nan; [done|by right].
  - right. apply all_nan in Nlic. split; [|by left].
    apply kpis_all_nan; [done|by left].
Qed.

Lemma kpis_need_a_limit_witness :
  NumLaws float ∧ NoDup ejemplo_hueco.*1 ∧
  (kpis (assign_Rango (df_filt (df ejemplo_hueco)
           [KStr "A"; KStr "B"] [KStr "X"]))).2 = Ok () ∧
  length (kpis (assign_Rango (df_filt (df ejemplo_hueco)
                  [KStr "A"; KStr "B"] [KStr "X"]))).1 = 4%nat ∧
  kpis (assign_Rango (df_filt (df ejemplo_hueco) [KStr "A"] [KStr "X"]))
    = ([], Raise ValueError).
Proof.
  split; [exact float64_laws|].
  assert (NoDup ejemplo_hueco.*1) as Hnd
    by (apply (bool_decide_unpack _); vm_compute; exact I).
  split; [exact Hnd|].
  destruct (kpis_need_a_limit ejemplo_hueco [KStr "A"; KStr "B"] [KStr "X"]
              Hnd) as [(H1 & H2 & _)|[H1 _]]; [|discriminate H1].
  destruct (kpis_need_a_limit ejemplo_hueco [KStr "A"] [KStr "X"] Hnd)
    as [(_ & _ & H3 & _)|[H3 _]]; [|done].
  apply Exists_cons in H3 as [H3|H3]; [discriminate H3|].
  by apply Exists_nil in H3.
Defined.

(** X11. The heatmap matrix has no empty row and no empty column: under
    every Base of its index some cell holds a mean that is not NaN, and so
    under every Variable of its columns. *)
Theorem heatmap_no_empty_line
    {L K N : Type} `{!EqDecision L, !KeyDtype K, !NumDtype N}
    (d : DataFrame L K N) :
  (∀ i b, pivot_index (df_heat d) !! i = Some b →
     ∃ j m, pivot_cell (df_heat d) i j = Some m ∧ isnan m = false) ∧
  (∀ j v, pivot_columns (df_heat d) !! j = Some v →
     ∃ i m, pivot_cell (df_heat d) i j = Some m ∧ isnan m = false).
Proof.
  assert (∀ ir i j, ir ∈ d → kept d ir →
            pivot_index (pivot_table d) !! i = Some (col_base ir.2) →
            pivot_columns (pivot_table d) !! j = Some (col_var ir.2) →
            ∃ m, pivot_cell (pivot_table d) i j = Some m ∧ isnan m = false)
    as Hcell.
  { intros ir i j Hir Hk Hi Hj.
    exists (cell_mean d (col_base ir.2) (col_var ir.2)).
    split; [|by destruct Hk as (_ & _ & ?)].
    rewrite (pivot_cell_lookup d i j _ _ Hi Hj). f_equal.
    rewrite kept_group.
    destruct (decide (isna (col_base ir.2) = false ∧ _)) as [_|Hn];
      [|by destruct Hn].
    rewrite decide_False; [done|]. intros E.
    assert (ir ∈ filter (λ x, col_base x.2 = col_base ir.2
                              ∧ col_var x.2 = col_var ir.2) d) as Hin
      by (by apply list_elem_of_filter).
    rewrite E in Hin. by apply not_elem_of_nil in Hin. }
  unfold df_heat. split.
  - intros i b Hi. pose proof (list_elem_of_lookup_2 _ _ _ Hi) as Hb.
    apply elem_of_pivot_index in Hb as (ir & Hir & <- & Hk).
    assert (col_var ir.2 ∈ pivot_columns (pivot_table d)) as Hv.
    { apply elem_of_pivot_columns. exists ir. by split. }
    apply list_elem_of_lookup_1 in Hv as [j Hj].
    exists j. by apply (Hcell ir).
  - intros j v Hj. pose proof (list_elem_of_lookup_2 _ _ _ Hj) as Hv.
    apply elem_of_pivot_columns in Hv as (ir & Hir & <- & Hk).
    assert (col_base ir.2 ∈ pivot_index (pivot_table d)) as Hb.
    { apply elem_of_pivot_index. exists ir. by split. }
    apply list_elem_of_lookup_1 in Hb as [i Hi].
    exists i. by apply (Hcell ir).
Qed.

(** X12. No chart shows what was not selected: the Bases of the heatmap's
    index are selected Bases, its columns and the Variables of the
    per-Variable means are selected Variables, and so are the Base and the
    Variable of every row of the table under tab 2. *)
Theorem charts_within_selection
    {L K N : Type} `{!EqDecision L, !KeyDtype K, !NumDtype N}
    (d : DataFrame L K N) (bases_sel vars_sel : list K) :
  Forall (λ b, b ∈ bases_sel)
    (pivot_index (df_heat (assign_Rango (df_filt d bases_sel vars_sel)))) ∧
  Forall (λ v, v ∈ vars_sel)
    (pivot_columns (df_heat (assign_Rango (df_filt d bases_sel vars_sel)))) ∧
  Forall (λ t, t.1.1 ∈ vars_sel)
    (df_vars (assign_Rango (df_filt d bases_sel vars_sel))) ∧
  Forall (λ x, x.2.1.1.1.1.1 ∈ bases_sel ∧ x.2.1.1.1.1.2 ∈ vars_sel)
    (datos_filtrados (assign_Rango (df_filt d bases_sel vars_sel))).
Proof.
  set (dff := assign_Rango (df_filt d bases_sel vars_sel)).
  pose proof (filtered_row_selected d bases_sel vars_sel) as Hsel.
  fold dff in Hsel. unfold df_heat. repeat split.
  - apply Forall_forall. intros b (ir & Hir & <- & _)%elem_of_pivot_index.
    by apply Hsel.
  - apply Forall_forall. intros v (ir & Hir & <- & _)%elem_of_pivot_columns.
    by apply Hsel.
  - apply Forall_forall. intros t Ht.
    unfold df_vars, sort_values in Ht. rewrite merge_sort_Permutation in Ht.
    apply list_elem_of_fmap in Ht as (v & -> & Hv). cbn.
    apply elem_of_group_keys in Hv as [Hv _]. unfold column in Hv.
    apply list_elem_of_fmap in Hv as (ir & -> & Hir). by apply Hsel.
  - unfold datos_filtrados. rewrite Forall_fmap. apply Forall_forall.
    intros ir Hir. cbn. by apply Hsel.
Qed.



Section positions.
Context {L K N : Type} `{!EqDecision L, !KeyDtype K, !NumDtype N}.

Lemma zip_seq_lookup {A} (l : list A) (j i : nat) :
  zip (seq j (length l)) l !! i = (λ x, ((j + i)%nat, x)) <$> l !! i.
Proof.
  revert j i. induction l as [|x l IH]; intros j [|i]; cbn; try done.
  - by rewrite Nat.add_0_r.
  - rewrite IH. by rewrite Nat.add_succ_r.
Qed.

Lemma zip_seq_labels {A} (l : list A) (j : nat) :
  (zip (seq j (length l)) l).*1 = seq j (length l).
Proof. apply fst_zip. by rewrite length_seq. Qed.

(** The row of [df] made from a row of the file. *)
Lemma elem_of_df (read_csv : DataFrame L K N) i r :
  (i, r) ∈ read_csv →
  (i, Row (col_base r) (col_var r) (col_lic r) (col_lsc r)
        (Some (num_sub (col_lsc r) (col_lic r)))
        (Some (num_half (num_add (col_lsc r) (col_lic r))))
        (passthrough r)) ∈ df read_csv.
Proof.
  intros Hin. unfold df, derive, load_data, assign_Centro, assign_Rango.
  rewrite <- list_fmap_compose.
  apply list_elem_of_fmap. by exists (i, r).
Qed.
End positions.

(** X15. Under distinct index labels [.loc] finds the row of a label: the
    row of the file under that label, with its two derived cells; a label
    the index does not hold is a [KeyError]. Under the [RangeIndex] of a
    file without index column the labels are the positions of the rows. *)
Theorem loc_by_label
    {L K N : Type} `{!EqDecision L, !KeyDtype K, !NumDtype N}
    (read_csv : DataFrame L K N) :
  NoDup read_csv.*1 →
  (∀ i r, (i, r) ∈ read_csv →
     loc (df read_csv) i =
       Ok (inl (Row (col_base r) (col_var r) (col_lic r) (col_lsc r)
                  (Some (num_sub (col_lsc r) (col_lic r)))
                  (Some (num_half (num_add (col_lsc r) (col_lic r))))
                  (passthrough r)))) ∧
  (∀ i, i ∉ read_csv.*1 → loc (df read_csv) i = Raise KeyError) ∧
  (∀ rows i,
     NoDup (range_index rows).*1 ∧
     ((range_index rows).*1 = seq 0 (length rows)) ∧
     range_index rows !! i = (λ r, (i, r)) <$> rows !! i).
Proof.
  intros Hnd. split; [|split].
  - intros i r Hin. apply elem_of_df in Hin.
    apply list_elem_of_split in Hin as (d1 & d2 & Hd).
    eapply loc_unique; [|exact Hd]. by rewrite df_labels.
  - intros i Hi. apply loc_missing. by rewrite df_labels.
  - intros rows i. unfold range_index. rewrite zip_seq_labels.
    split; [apply NoDup_seq|]. split; [done|].
    by rewrite zip_seq_lookup.
Qed.

Lemma loc_by_label_witness :
  NoDup ejemplo_medias.*1 ∧
  loc (df ejemplo_medias) 1%nat =
    Ok (inl (Row (KStr "B") (KStr "X") 14%float 22%float
               (Some 8%float) (Some 18%float) [])) ∧
  loc (df ejemplo_medias) 2%nat = Raise KeyError.
Proof.
  assert (NoDup ejemplo_medias.*1) as Hnd
    by (apply (bool_decide_unpack _); vm_compute; exact I).
  split; [exact Hnd|].
  destruct (loc_by_label ejemplo_medias Hnd) as (H1 & H2 & _). split.
  - apply (H1 1%nat (fila (KStr "B") (KStr "X") 14 22)).
    right. left.
  - apply H2. apply (bool_decide_unpack _). vm_compute. exact I.
Defined.

(** * Trimming the header names *)

Section header.
Context {C : Type} (isspace : C → bool).
Implicit Types (s : list C).

Lemma lstrip_split s :
  ∃ l, s = l ++ lstrip isspace s ∧ Forall (λ ch, isspace ch = true) l.
Proof.
  induction s as [|ch s (l & Hs & Hl)]; [by exists []|].
  cbn. destruct (isspace ch) eqn:E.
  - exists (ch :: l). split; [by rewrite <- app_comm_cons, <- Hs|].
    by constructor.
  - by exists [].
Qed.

Lemma lstrip_head s ch :
  head (lstrip isspace s) = Some ch → isspace ch = false.
Proof.
  induction s as [|x s IH]; [done|]. cbn.
  destruct (isspace x) eqn:E; [done|]. cbn. by intros [= <-].
Qed.

Lemma lstrip_fixed s :
  (∀ ch, head s = Some ch → isspace ch = false) → lstrip isspace s = s.
Proof. destruct s as [|x s]; [done|]. intros H. cbn. by rewrite (H x). Qed.

Lemma rstrip_split s :
  ∃ r, s = rstrip isspace s ++ r ∧ Forall (λ ch, isspace ch = true) r.
Proof.
  unfold rstrip. destruct (lstrip_split (reverse s)) as (l & Hs & Hl).
  exists (reverse l). split; [|by apply Forall_reverse].
  by rewrite <- reverse_app, <- Hs, reverse_involutive.
Qed.

Lemma rstrip_last s ch :
  last (rstrip isspace s) = Some ch → isspace ch = false.
Proof. unfold rstrip. rewrite last_reverse. apply lstrip_head. Qed.

Lemma rstrip_fixed s :
  (∀ ch, last s = Some ch → isspace ch = false) → rstrip isspace s = s.
Proof.
  intros H. unfold rstrip. rewrite lstrip_fixed, reverse_involutive; [done|].
  intros ch. rewrite head_reverse. apply H.
Qed.

(** What [strip] leaves of a name: the name without a run of whitespace at
    its start and one at its end, with no whitespace left at either end. *)
Lemma strip_spec s :
  ∃ l r, s = l ++ strip isspace s ++ r ∧
    Forall (λ ch, isspace ch = true) l ∧ Forall (λ ch, isspace ch = true) r ∧
    (∀ ch, head (strip isspace s) = Some ch → isspace ch = false) ∧
    (∀ ch, last (strip isspace s) = Some ch → isspace ch = false).
Proof.
  unfold strip. destruct (lstrip_split s) as (l & Hs & Hl).
  destruct (rstrip_split (lstrip isspace s)) as (r & Ht & Hr).
  exists l, r. split; [by rewrite <- Ht|]. split; [done|]. split; [done|].
  split; [|apply rstrip_last].
  intros ch Hch. apply (lstrip_head s). rewrite Ht.
  apply head_Some in Hch as [u ->]. done.
Qed.

Lemma strip_fixed s :
  (∀ ch, head s = Some ch → isspace ch = false) →
  (∀ ch, last s = Some ch → isspace ch = false) →
  strip isspace s = s.
Proof.
  intros Hh Hl. unfold strip. rewrite lstrip_fixed by done.
  by apply rstrip_fixed.
Qed.
End header.

(** X16. Trimming the header keeps the number and the order of the column
    names and is idempotent; each trimmed name is the original name
    without a run of whitespace at its start and one at its end, and has
    no whitespace left at either end. This holds for whatever characters
    the string type counts as whitespace. *)
Theorem header_trim {C : Type} (isspace : C → bool) (columns : list (list C)) :
  length (columns_strip isspace columns) = length columns ∧
  columns_strip isspace (columns_strip isspace columns)
    = columns_strip isspace columns ∧
  Forall2 (λ name trimmed,
    ∃ l r, name = l ++ trimmed ++ r ∧
      Forall (λ ch, isspace ch = true) l ∧
      Forall (λ ch, isspace ch = true) r ∧
      (∀ ch, head trimmed = Some ch → isspace ch = false) ∧
      (∀ ch, last trimmed = Some ch → isspace ch = false))
    columns (columns_strip isspace columns).
Proof.
  unfold columns_strip. split; [apply length_fmap|]. split.
  - rewrite <- list_fmap_compose. apply list_fmap_ext. intros i s _. cbn.
    destruct (strip_spec isspace s) as (l & r & _ & _ & _ & Hh & Hl).
    by apply strip_fixed.
  - apply Forall2_fmap_r, Forall_Forall2_diag, Forall_forall.
    intros s _. apply strip_spec.
Qed.


